(** * Movie recommender (app.py): embedding and verified properties

    The program is a Streamlit page: it unpickles a table of movies and a
    precomputed similarity matrix ([load_data]), looks a title up and ranks
    the other movies by the similarity row of that title ([recommend]), and
    asks a web API for one poster per recommended movie ([fetch_poster]).

    The embedding follows the Python text line by line.  Python statements
    become computations in a state-and-exception monad over a [world] that
    holds what the code can read or change: the two data objects, the files
    on disk, the cache of [st.cache_data], the network and the messages shown
    on the page.  Similarity scores are IEEE binary64 numbers, as in the NumPy
    array the program sorts. *)

From Stdlib Require Import ZArith Floats Lia.
From Stdlib Require OrderedTypeEx.
From stdpp Require Import base list strings gmap pretty sorting.

Set Warnings "-inexact-float".

(* ================================================================= *)
(** ** Python exceptions and the monad of statements *)

(** The exception classes the program can meet.  [StopException] is what
    [st.stop()] raises; in Streamlit it derives from [BaseException], so an
    [except Exception] clause does not catch it. *)
Inductive exn :=
| FileNotFoundError
| UnpicklingError
| KeyError (key : string)
| IndexError
| AttributeError
| TypeError
| ValueError
| OverflowError
| Timeout
| RequestException
| JSONDecodeError
| StopException.

(** [isinstance(e, Exception)] *)
Definition is_Exception (e : exn) : bool :=
  match e with StopException => false | _ => true end.

(** [isinstance(e, requests.exceptions.RequestException)]: timeouts and the
    JSON error of recent versions of requests are subclasses. *)
Definition is_RequestException (e : exn) : bool :=
  match e with Timeout | RequestException | JSONDecodeError => true | _ => false end.

(** [isinstance(e, requests.exceptions.Timeout)] *)
Definition is_Timeout (e : exn) : bool :=
  match e with Timeout => true | _ => false end.

(** [isinstance(e, FileNotFoundError)] *)
Definition is_FileNotFoundError (e : exn) : bool :=
  match e with FileNotFoundError => true | _ => false end.

Inductive result (A : Type) :=
| Ret (a : A)
| Raise (e : exn).
Arguments Ret {A} a.
Arguments Raise {A} e.

(** A statement run in state [s] returns or raises, and leaves a state. *)
Definition M (S A : Type) : Type := S → result A * S.

Definition ret {S A} (a : A) : M S A := λ s, (Ret a, s).

Definition bind {S A B} (m : M S A) (k : A → M S B) : M S B :=
  λ s, match m s with
       | (Ret a, s') => k a s'
       | (Raise e, s') => (Raise e, s')
       end.

Notation "'let*' x ':=' m 'in' k" := (bind m (λ x, k))
  (at level 10, x name, m at level 100, k at level 200,
   format "'[v' 'let*'  x  :=  m  'in'  '/' k ']'").
Notation "'let*' ' p ':=' m 'in' k" := (bind m (λ x, match x with p => k end))
  (at level 10, p strict pattern, m at level 100, k at level 200).
Notation "m ';;' k" := (bind m (λ _, k))
  (at level 100, k at level 200, right associativity).

Definition raise {S A} (e : exn) : M S A := λ s, (Raise e, s).

Definition gets {S A} (f : S → A) : M S A := λ s, (Ret (f s), s).

Definition modify {S} (f : S → S) : M S unit := λ s, (Ret tt, f s).

(** [try: body except C1: h1 except C2: h2 ...]: the first clause whose
    class test accepts the exception handles it, in the state the body left;
    with no such clause the exception goes on. *)
Definition try_except {S A} (body : M S A)
    (clauses : list ((exn → bool) * (exn → M S A))) : M S A :=
  λ s, match body s with
       | (Raise e, s') =>
           match find (λ c, c.1 e) clauses with
           | Some c => c.2 e s'
           | None => (Raise e, s')
           end
       | r => r
       end.

(** [for x in l: acc = body(x, acc)] *)
Fixpoint for_each {S A B} (l : list A) (body : A → B → M S B) (acc : B) : M S B :=
  match l with
  | [] => ret acc
  | x :: l' => let* acc' := body x acc in for_each l' body acc'
  end.

(** The value and the final state of a run. *)
Definition value {S A} (m : M S A) (s : S) : result A := (m s).1.
Definition after {S A} (m : M S A) (s : S) : S := (m s).2.

(* ================================================================= *)
(** ** Data model *)

(** A cell of the [id] column: an integer, or NaN where the identifier is
    missing (the column is then a float column, which can also hold an
    infinity). *)
Inductive id_cell :=
| IdInt (z : Z)
| IdNaN
| IdInf.

#[global] Instance id_cell_eq_dec : EqDecision id_cell.
Proof. solve_decision. Defined.

(** A row of the movie table.  [label] is the row's index label, which
    pandas keeps when rows are filtered; [title] is [None] for a NaN cell.
    The other columns are not read by the program. *)
Record Movie := {
  label : Z;
  title : option string;
  movie_id : id_cell;
}.

#[global] Instance Movie_eq_dec : EqDecision Movie.
Proof. solve_decision. Defined.

(** A pandas DataFrame, as far as the program reads it: the names of its
    columns and its rows in order. *)
Record DataFrame := {
  columns : gset string;
  rows : list Movie;
}.

(** A table built from (title, id) records, with the default index
    0, 1, 2, ... and the two columns the program needs. *)
Definition table (records : list (string * Z)) : DataFrame :=
  {| columns := {["title"]} ∪ {["id"]};
     rows := imap (λ i r, {| label := Z.of_nat i; title := Some r.1;
                             movie_id := IdInt r.2 |}) records |}.

(** A Python object that [pickle.load] can return, by what the program
    distinguishes. *)
Inductive pyobj :=
| PyNone
| PyDataFrame (df : DataFrame)
| PyArray (a : list (list float))
| PyOther.

(** A file of the working directory. *)
Inductive file :=
| Missing
| Corrupt
| Pickle (obj : pyobj).

(** A decoded JSON value, by its truth value and its [str()]: a list, a
    dict or a float is given by both. *)
Inductive pyval :=
| PNull
| PBool (b : bool)
| PInt (z : Z)
| PStr (s : string)
| PComposite (truthy : bool) (text : string).

#[global] Instance pyval_eq_dec : EqDecision pyval.
Proof. solve_decision. Defined.

(** What [response.json()] returns. *)
Inductive json :=
| JDict (items : list (string * pyval))
| JList (items : list pyval)
| JScalar (v : pyval).

(** The body of a response: JSON data, or text that is not JSON.  On such
    a body [response.json()] raises [requests.exceptions.JSONDecodeError],
    and in older versions of requests ([legacy]) a plain [ValueError]. *)
Inductive body :=
| NotJson (legacy : bool)
| Json (data : json).

Record response := {
  status_code : Z;
  content : body;
}.

(** The outcome of one GET within the timeout of 10 seconds. *)
Inductive http_outcome :=
| TimedOut
| Failed
| Responded (r : response).

(** The calls of [st.error], by the line of the program that makes them. *)
Inductive message :=
| FilesNotFound
| ErrorLoadingData (e : exn)
| ErrorGeneratingRecommendations (e : exn)
| FailedToLoad
| TitleColumnNotFound
| IdColumnNotFound.

(** Everything the program reads or changes.  [movies_df] and
    [similarity_matrix] are the two objects that the parameters of
    [recommend] refer to: Python passes references, so a write through a
    parameter would change the object held here. *)
Record world := {
  movies_df : DataFrame;
  similarity_matrix : list (list float);
  storage : string → file;
  cache : option (pyobj * pyobj);
  opened : list string;
  network : string → http_outcome;
  requested : list string;
  shown : list message;
}.

Definition log_open (name : string) (w : world) : world :=
  {| movies_df := movies_df w; similarity_matrix := similarity_matrix w;
     storage := storage w; cache := cache w; opened := opened w ++ [name];
     network := network w; requested := requested w; shown := shown w |}.

Definition with_requested (urls : list string) (w : world) : world :=
  {| movies_df := movies_df w; similarity_matrix := similarity_matrix w;
     storage := storage w; cache := cache w; opened := opened w;
     network := network w; requested := urls; shown := shown w |}.

Definition log_request (url : string) (w : world) : world :=
  with_requested (requested w ++ [url]) w.

Definition log_message (msg : message) (w : world) : world :=
  {| movies_df := movies_df w; similarity_matrix := similarity_matrix w;
     storage := storage w; cache := cache w; opened := opened w;
     network := network w; requested := requested w; shown := shown w ++ [msg] |}.

Definition set_cache (entry : pyobj * pyobj) (w : world) : world :=
  {| movies_df := movies_df w; similarity_matrix := similarity_matrix w;
     storage := storage w; cache := Some entry; opened := opened w;
     network := network w; requested := requested w; shown := shown w |}.

(* ================================================================= *)
(** ** Library operations the program calls *)

(** [st.error(msg)] *)
Definition st_error (msg : message) : M world unit := modify (log_message msg).

(** [st.stop()] *)
Definition st_stop {A} : M world A := raise StopException.

(** [pickle.load(open(name, 'rb'))] *)
Definition pickle_load (name : string) : M world pyobj :=
  modify (log_open name);;
  let* f := gets (λ w, storage w name) in
  match f with
  | Missing => raise FileNotFoundError
  | Corrupt => raise UnpicklingError
  | Pickle obj => ret obj
  end.

(** [@st.cache_data] on a function without parameters: the first call that
    returns stores its value, and later calls return the stored value
    without running the function. *)
Definition st_cache_data (f : M world (pyobj * pyobj)) : M world (pyobj * pyobj) :=
  let* entry := gets cache in
  match entry with
  | Some v => ret v
  | None => let* v := f in modify (set_cache v);; ret v
  end.

(** [requests.get(url, timeout=10)] *)
Definition requests_get (url : string) : M world response :=
  modify (log_request url);;
  let* outcome := gets (λ w, network w url) in
  match outcome with
  | TimedOut => raise Timeout
  | Failed => raise RequestException
  | Responded r => ret r
  end.

(** [response.json()] *)
Definition response_json (r : response) : M world json :=
  match content r with
  | NotJson legacy => raise (if legacy then ValueError else JSONDecodeError)
  | Json data => ret data
  end.

(** A dict built from JSON keeps the last value of a repeated key. *)
Fixpoint dict_get (key : string) (items : list (string * pyval)) : option pyval :=
  match items with
  | [] => None
  | (k, v) :: rest =>
      match dict_get key rest with
      | Some v' => Some v'
      | None => if decide (k = key) then Some v else None
      end
  end.

(** [key in data] *)
Definition py_contains (key : string) (data : json) : M world bool :=
  match data with
  | JDict items => ret (bool_decide (is_Some (dict_get key items)))
  | JList items => ret (bool_decide (PStr key ∈ items))
  | JScalar (PStr s) => ret (bool_decide (is_Some (String.index 0 key s)))
  | JScalar _ => raise TypeError
  end.

(** [data[key]] for a string key *)
Definition py_getitem (data : json) (key : string) : M world pyval :=
  match data with
  | JDict items =>
      match dict_get key items with
      | Some v => ret v
      | None => raise (KeyError key)
      end
  | _ => raise TypeError
  end.

(** [bool(v)] *)
Definition py_bool (v : pyval) : bool :=
  match v with
  | PNull => false
  | PBool b => b
  | PInt z => negb (z =? 0)%Z
  | PStr s => negb (String.eqb s "")
  | PComposite truthy _ => truthy
  end.

(** [str(v)], what an f-string puts for [{v}] *)
Definition py_str (v : pyval) : string :=
  match v with
  | PNull => "None"
  | PBool b => if b then "True" else "False"
  | PInt z => pretty z
  | PStr s => s
  | PComposite _ text => text
  end.

(** [pd.isna(movie_id)] *)
Definition pd_isna (c : id_cell) : bool :=
  match c with IdNaN => true | _ => false end.

(** [movie_id == 0] *)
Definition eq_zero (c : id_cell) : bool :=
  match c with IdInt z => (z =? 0)%Z | _ => false end.

(** [int(movie_id)] *)
Definition py_int (c : id_cell) : M world Z :=
  match c with
  | IdInt z => ret z
  | IdNaN => raise ValueError
  | IdInf => raise OverflowError
  end.

(** [df[name]] for a column: [KeyError] when the table has no such column. *)
Definition df_column {A} (df : DataFrame) (name : string) (cell : Movie → A)
    : M world (list A) :=
  if decide (name ∈ columns df) then ret (cell <$> rows df) else raise (KeyError name).

(** [df[mask]]: the rows whose flag is set, with their labels. *)
Definition df_mask (df : DataFrame) (mask : list bool) : DataFrame :=
  {| columns := columns df;
     rows := (filter (λ rb, rb.2 = true) (zip (rows df) mask)).*1 |}.

(** [df.empty]: no row or no column *)
Definition df_empty (df : DataFrame) : bool :=
  bool_decide (rows df = []) || bool_decide (columns df = ∅).

(** [df.index[0]] *)
Definition df_index_0 (df : DataFrame) : M world Z :=
  match rows df with
  | r :: _ => ret (label r)
  | [] => raise IndexError
  end.

(** [df.iloc[k]] for a position [k ≥ 0] *)
Definition df_iloc (df : DataFrame) (k : nat) : M world Movie :=
  match rows df !! k with
  | Some r => ret r
  | None => raise IndexError
  end.

(** [row[name]] on a row of [df] *)
Definition row_get {A} (df : DataFrame) (r : Movie) (name : string) (cell : Movie → A)
    : M world A :=
  if decide (name ∈ columns df) then ret (cell r) else raise (KeyError name).

(** [a[index]] on a NumPy array: a negative index counts from the end. *)
Definition ndarray_getitem (a : list (list float)) (index : Z) : M world (list float) :=
  let n := Z.of_nat (length a) in
  let i := if (index <? 0)%Z then (index + n)%Z else index in
  if decide (0 ≤ i < n)%Z then
    match a !! Z.to_nat i with
    | Some r => ret r
    | None => raise IndexError
    end
  else raise IndexError.

(** [enumerate(l)] as a list *)
Definition enumerate {A} (l : list A) : list (nat * A) := imap (λ i x, (i, x)) l.

(** [l[lo:hi]] for [0 ≤ lo ≤ hi] *)
Definition slice {A} (l : list A) (lo hi : nat) : list A := take (hi - lo) (drop lo l).

(** Python's sort is stable and compares keys with [<] only.  Insertion
    puts [x] behind the elements of the sorted list whose key is smaller and
    before the others, so equal keys keep their order. *)
Fixpoint insert_by {A} (key : A → float) (x : A) (l : list A) : list A :=
  match l with
  | [] => [x]
  | y :: l' => if (key y <? key x)%float then y :: insert_by key x l' else x :: y :: l'
  end.

Definition stable_sort {A} (key : A → float) (l : list A) : list A :=
  foldr (insert_by key) [] l.

(** [sorted(l, reverse=..., key=...)].  With [reverse=True] CPython reverses
    the list, sorts it ascending and reverses the result, which keeps equal
    keys in their original order.  Where [<] is a weak order on the keys
    (no NaN among them) the stable result is unique, so that the sorting
    method does not matter; with a NaN key CPython's result depends on its
    merge strategy and this function only agrees with it up to a
    permutation. *)
Definition sorted {A} (l : list A) (reverse : bool) (key : A → float) : list A :=
  if reverse then rev (stable_sort key (rev l)) else stable_sort key l.

(* ================================================================= *)
(** ** The program *)

(** [load_data], lines 15-27 *)
Definition load_data_body : M world (pyobj * pyobj) :=
  try_except
    (let* movies := pickle_load "movie_list.pkl" in
     let* similarity := pickle_load "similarity.pkl" in
     ret (movies, similarity))
    [ (is_FileNotFoundError, λ _, st_error FilesNotFound;; st_stop);
      (is_Exception, λ e, st_error (ErrorLoadingData e);; st_stop) ].

Definition load_data : M world (pyobj * pyobj) := st_cache_data load_data_body.

Definition no_poster : string :=
  "https://via.placeholder.com/500x750/cccccc/666666?text=No+Poster".
Definition timeout_poster : string :=
  "https://via.placeholder.com/500x750/ffcccc/cc0000?text=Timeout".
Definition error_poster : string :=
  "https://via.placeholder.com/500x750/ffcccc/cc0000?text=Error".
Definition no_image : string :=
  "https://via.placeholder.com/500x750/cccccc/666666?text=No+Image".

Definition api_url (n : Z) : string :=
  "https://api.themoviedb.org/3/movie/" +:+ pretty n
    +:+ "?api_key=8265bd1679663a7ea12ac168da84d2e8&language=en-US".

Definition image_host : string := "https://image.tmdb.org/t/p/w500".

(** [fetch_poster], lines 29-51.  [found] is the URL returned at line 41,
    if that line is reached; otherwise control falls to line 44. *)
Definition fetch_poster (movie_id : id_cell) : M world string :=
  if pd_isna movie_id || eq_zero movie_id then ret no_poster
  else
    try_except
      (let* n := py_int movie_id in
       let url := api_url n in
       let* response := requests_get url in
       let* found :=
         (if (status_code response =? 200)%Z then
            let* data := response_json response in
            let* present := py_contains "poster_path" data in
            if present then
              let* poster_path := py_getitem data "poster_path" in
              if py_bool poster_path
              then ret (Some (image_host +:+ py_str poster_path))
              else ret None
            else ret None
          else ret None) in
       match found with
       | Some poster_url => ret poster_url
       | None => ret no_poster
       end)
      [ (is_Timeout, λ _, ret timeout_poster);
        (is_RequestException, λ _, ret error_poster);
        (is_Exception, λ _, ret no_image) ].

(** The ranking of line 63 *)
Definition distances_of (row : list float) : list (nat * float) :=
  sorted (enumerate row) true snd.

(** Lines 57-62: the label of the first row with the title.  [None] is
    the early return of line 59. *)
Definition lookup_index (df : DataFrame) (movie : string) : M world (option Z) :=
  let* titles := df_column df "title" title in
  let movie_matches := df_mask df ((λ t, bool_decide (t = Some movie)) <$> titles) in
  if df_empty movie_matches then ret None
  else
    let* index := df_index_0 movie_matches in
    ret (Some index).

(** Lines 70-75: one turn of the loop, on the two lists built so far. *)
Definition loop_body (df : DataFrame) (i : nat * float)
    (acc : list (option string) * list string)
    : M world (list (option string) * list string) :=
  let '(recommended_movie_names, recommended_movie_posters) := acc in
  let* r := df_iloc df i.1 in
  let* movie_title := row_get df r "title" title in
  let* r' := df_iloc df i.1 in
  let* id := row_get df r' "id" movie_id in
  let* poster_url := fetch_poster id in
  ret (recommended_movie_names ++ [movie_title],
       recommended_movie_posters ++ [poster_url]).

(** Lines 63-77: rank the row of [index], and collect title and poster of
    the entries at ranks 1 to 5. *)
Definition top_five (df : DataFrame) (matrix : list (list float)) (index : Z)
    : M world (list (option string) * list string) :=
  let* row := ndarray_getitem matrix index in
  let distances := distances_of row in
  for_each (slice distances 1 6) (loop_body df) ([], []).

(** [recommend], lines 56-77: the body of the [try]. *)
Definition recommend_body (movie : string)
    : M world (list (option string) * list string) :=
  let* df := gets movies_df in
  let* matrix := gets similarity_matrix in
  let* found := lookup_index df movie in
  match found with
  | None => ret ([], [])
  | Some index => top_five df matrix index
  end.

(** [recommend], lines 53-81 *)
Definition recommend (movie : string) : M world (list (option string) * list string) :=
  try_except (recommend_body movie)
    [ (is_Exception, λ e, st_error (ErrorGeneratingRecommendations e);; ret ([], [])) ].

(** [movies.columns]: only a DataFrame has the attribute. *)
Definition py_columns (obj : pyobj) : M world (gset string) :=
  match obj with
  | PyDataFrame df => ret (columns df)
  | _ => raise AttributeError
  end.

Definition is_PyNone (obj : pyobj) : bool :=
  match obj with PyNone => true | _ => false end.

(** [main], lines 88-103: the load and the checks of what was loaded.
    [None] is the [return] of lines 94, 99 and 103; otherwise [main] goes on
    with the pair. *)
Definition main_load : M world (option (pyobj * pyobj)) :=
  let* '(movies, similarity) := load_data in
  if is_PyNone movies || is_PyNone similarity then
    st_error FailedToLoad;; ret None
  else
    let* cols := py_columns movies in
    if bool_decide ("title" ∉ cols) then st_error TitleColumnNotFound;; ret None
    else if bool_decide ("id" ∉ cols) then st_error IdColumnNotFound;; ret None
    else ret (Some (movies, similarity)).

(* ================================================================= *)
(** ** Notions used in the statements *)

(** The world in which [recommend] is called on a table and a matrix. *)
Definition with_data (df : DataFrame) (matrix : list (list float)) (w : world) : world :=
  {| movies_df := df; similarity_matrix := matrix;
     storage := storage w; cache := cache w; opened := opened w;
     network := network w; requested := requested w; shown := shown w |}.

Definition with_network (net : string → http_outcome) (w : world) : world :=
  {| movies_df := movies_df w; similarity_matrix := similarity_matrix w;
     storage := storage w; cache := cache w; opened := opened w;
     network := net; requested := requested w; shown := shown w |}.

Definition with_storage (files : string → file) (w : world) : world :=
  {| movies_df := movies_df w; similarity_matrix := similarity_matrix w;
     storage := files; cache := cache w; opened := opened w;
     network := network w; requested := requested w; shown := shown w |}.

(** The URL that [fetch_poster] returns for an identifier. *)
Definition poster (w : world) (id : id_cell) : string :=
  match value (fetch_poster id) w with
  | Ret url => url
  | Raise _ => ""
  end.

(** All that a run may have changed is the list of requests sent. *)
Definition requested_more (w w' : world) : Prop :=
  ∃ urls, w' = with_requested (requested w ++ urls) w.

(** The two data objects are as they were. *)
Definition data_unchanged (w w' : world) : Prop :=
  movies_df w' = movies_df w ∧ similarity_matrix w' = similarity_matrix w.

(** The invariants of the data model.  The table has the default index:
    the label of a row is its position. *)
Definition default_index (df : DataFrame) : Prop :=
  ∀ k r, rows df !! k = Some r → label r = Z.of_nat k.

(** The matrix is [n] by [n]. *)
Definition square (n : nat) (matrix : list (list float)) : Prop :=
  length matrix = n ∧ Forall (λ row, length row = n) matrix.

(** Table and matrix fit: both columns are there, the index is the default
    one and the matrix has one row and one column per movie. *)
Definition well_formed (w : world) : Prop :=
  "title" ∈ columns (movies_df w) ∧ "id" ∈ columns (movies_df w) ∧
  default_index (movies_df w) ∧
  square (length (rows (movies_df w))) (similarity_matrix w).

(** No two rows have the same title. *)
Definition unique_titles (df : DataFrame) : Prop := NoDup (title <$> rows df).

(** In every row [i] of the matrix no entry is greater than entry [i]. *)
Definition self_similarity_maximal (matrix : list (list float)) : Prop :=
  ∀ i j row s x, matrix !! i = Some row → row !! i = Some s → row !! j = Some x →
                 (s <? x)%float = false.

(** Entry [k] of the row is greater than every other entry. *)
Definition strictly_maximal (k : nat) (row : list float) : Prop :=
  ∃ s, row !! k = Some s ∧ ∀ j x, j ≠ k → row !! j = Some x → (x <? s)%float = true.

(** A number, not a NaN. *)
Definition number (x : float) : Prop := PrimFloat.is_nan x = false.

(** The ranking that line 63 is meant to produce: [a] goes before [b]
    when its score is greater, or when the scores are equal and its row
    comes first. *)
Definition ranked (a b : nat * float) : Prop :=
  (b.2 <? a.2)%float = true ∨ ((a.2 =? b.2)%float = true ∧ a.1 < b.1).

(** What a stable ascending sort by [key] establishes on a list that was
    ordered by [before]: smaller keys first, and equal keys as they were. *)
Definition earlier {A} (key : A → float) (before : A → A → Prop) (x y : A) : Prop :=
  (key x <? key y)%float = true ∨ ((key y <? key x)%float = false ∧ before x y).

(** A NaN of the specification of binary64. *)
Definition SFnan (a : spec_float) : bool :=
  match a with S754_nan => true | _ => false end.

(** The four placeholder images. *)
Definition is_placeholder (url : string) : Prop :=
  url ∈ [no_poster; timeout_poster; error_poster; no_image].

(** The poster path that the API gives for an identifier: the identifier
    is a number other than 0, the request is answered with status 200 and a
    JSON object, and the object has a [poster_path] that is not empty (not
    null, false, zero or an empty text, list or object). *)
Definition poster_path_of (w : world) (id : id_cell) : option pyval :=
  match id with
  | IdInt n =>
      if (n =? 0)%Z then None
      else match network w (api_url n) with
           | Responded r =>
               if (status_code r =? 200)%Z then
                 match content r with
                 | Json (JDict items) =>
                     match dict_get "poster_path" items with
                     | Some path => if py_bool path then Some path else None
                     | None => None
                     end
                 | _ => None
                 end
               else None
           | _ => None
           end
  | _ => None
  end.

(** What the files hold is a movie table with both columns and a matrix
    with one row and one column per movie. *)
Definition artifacts_well_formed (movies similarity : pyobj) : Prop :=
  ∃ df a, movies = PyDataFrame df ∧ similarity = PyArray a ∧
          "title" ∈ columns df ∧ "id" ∈ columns df ∧ square (length (rows df)) a.

(* ================================================================= *)
(** ** Concrete data *)

(** A process that has loaded nothing yet, with no file on disk and a
    network that does not answer. *)
Definition fresh : world :=
  {| movies_df := {| columns := ∅; rows := [] |}; similarity_matrix := [];
     storage := λ _, Missing; cache := None; opened := [];
     network := λ _, TimedOut; requested := []; shown := [] |}.

(** Files with the given objects pickled in them. *)
Definition pickled (movies similarity : pyobj) : string → file :=
  λ name, if String.eqb name "movie_list.pkl" then Pickle movies
          else if String.eqb name "similarity.pkl" then Pickle similarity
          else Missing.

(** The scenario of the specification. *)
Definition scenario_table : DataFrame := table [("A", 1%Z); ("B", 2%Z); ("C", 3%Z)].
Definition scenario_row : list float := [1.0; 0.9; 0.1]%float.

Definition scenario_matrix : list (list float) :=
  [[1.0; 0.9; 0.1]; [0.9; 1.0; 0.2]; [0.1; 0.2; 1.0]]%float.
Definition scenario : world := with_data scenario_table scenario_matrix fresh.

(** The scenario with its two artifacts on disk. *)
Definition stored : world :=
  with_storage (pickled (PyDataFrame scenario_table) (PyArray scenario_matrix)) fresh.

(** A table in which two rows have the title A. *)
Definition duplicates : world :=
  with_data (table [("B", 2%Z); ("A", 1%Z); ("A", 3%Z)]) scenario_matrix fresh.

(** Two movies that are as similar to each other as to themselves. *)
Definition tie_table : DataFrame := table [("A", 1%Z); ("B", 2%Z)].
Definition tie_matrix : list (list float) := [[1.0; 1.0]; [1.0; 1.0]]%float.

(** A network on which every request gets the same outcome. *)
Definition always (outcome : http_outcome) : world :=
  with_network (λ _, outcome) fresh.

(** An answer with status 200 and a JSON body. *)
Definition ok (data : json) : http_outcome :=
  Responded {| status_code := 200; content := Json data |}.

(** Three movies and a matrix of one row and one column. *)
Definition mismatch : world :=
  with_storage (pickled (PyDataFrame scenario_table) (PyArray [[1.0%float]])) fresh.

(* ================================================================= *)
(** ** The page: [main] after the checks *)

(** [series.dropna()] on the column of titles *)
Definition dropna (cells : list (option string)) : list string := omap id cells.

(** [series.unique()]: the values in the order of their first appearance *)
Fixpoint unique (l : list string) : list string :=
  match l with
  | [] => []
  | x :: l' => x :: filter (λ y, y ≠ x) (unique l')
  end.

(** [sorted(l)] on strings.  Python compares strings by code points, which
    is the order of their UTF-8 bytes; the sort is stable and uses [<]
    only, as in [insert_by]. *)
Fixpoint insert_str (x : string) (l : list string) : list string :=
  match l with
  | [] => [x]
  | y :: l' => if String.ltb y x then y :: insert_str x l' else x :: y :: l'
  end.

Definition sorted_str (l : list string) : list string := foldr insert_str [] l.

(** Line 106: [sorted(movies['title'].dropna().unique())] *)
Definition movie_list (df : DataFrame) : M world (list string) :=
  let* titles := df_column df "title" title in
  ret (sorted_str (unique (dropna titles))).

(** What the user and the browser contribute to a run of the script: the
    option chosen in the dropdown (by position), whether the button was
    pressed and the checkbox ticked, and for which URLs [st.image] fails. *)
Record widgets := {
  choice : nat;
  clicked : bool;
  debug : bool;
  image_error : string → option exn;
}.

(** The fixed texts that [main] writes with [st.markdown]. *)
Inductive text :=
| Separator
| LineBreak
| Bold (name : option string)
| FooterText
| AboutHeading
| AboutText
| StatsHeading
| HowHeading
| HowText
| DebugHeading.

(** The calls of [st.error] of lines 109 and 141. *)
Inductive alert :=
| NoMoviesFound
| FailedToLoadImage (e : exn).

(** The calls of [st.warning] of lines 144 and 146. *)
Inductive notice :=
| NoRecommendationsFound
| SelectMovieFirst.

Inductive metric :=
| TotalMovies (n : nat)
| TotalMoviesLoading
| FeaturesUsed.

(** What the debug block writes: the columns, the shape and the first
    identifiers. *)
Inductive debug_info :=
| DataColumns (cols : gset string)
| DataShape (n_rows n_columns : nat)
| SampleIds (ids : list id_cell).

(** An element of the page. *)
Inductive element :=
| Markdown (t : text)
| Error (a : alert)
| Warning (n : notice)
| Success (movie : string)
| Selectbox (options : list string)
| Button
| Columns (n : nat)
| Image (url : string)
| Metric (m : metric)
| Checkbox
| Write (d : debug_info).

(** Where an element is drawn: in the body, in one of the columns of
    [st.columns(5)] or in the sidebar. *)
Inductive place :=
| Body
| Column (i : nat)
| Sidebar.

(** The state of a run of [main]: the world, and the elements drawn so far
    (the errors that [load_data] and [recommend] show are in the world). *)
Record page := {
  session : world;
  elements : list (place * element);
}.

(** A statement on the world, run within the page. *)
Definition lift {A} (m : M world A) : M page A :=
  λ p, let '(r, w) := m (session p) in (r, {| session := w; elements := elements p |}).

(** A call that draws an element. *)
Definition emit (at_ : place) (e : element) : M page unit :=
  modify (λ p, {| session := session p; elements := elements p ++ [(at_, e)] |}).

(** [st.selectbox(..., options=options)]: the option chosen, the
    first one when nothing else is chosen (the options are not empty). *)
Definition selectbox (options : list string) (chosen : nat) : string :=
  default (default "" (head options)) (options !! chosen).

(** [st.image(url, ...)] in a column *)
Definition st_image (ui : widgets) (i : nat) (url : string) : M page unit :=
  match image_error ui url with
  | Some e => raise e
  | None => emit (Column i) (Image url)
  end.

Definition image_fallback : string :=
  "https://via.placeholder.com/500x750/cccccc/666666?text=Error".

(** Lines 136-142: a name and its poster in column [i] *)
Definition show_column (ui : widgets) (i : nat) (name : option string) (poster : string)
    : M page unit :=
  emit (Column i) (Markdown (Bold name));;
  try_except (st_image ui i poster)
    [ (is_Exception,
       λ e, emit (Column i) (Error (FailedToLoadImage e));; st_image ui i image_fallback) ].

(** Lines 128-142: the recommendations, side by side *)
Definition show_recommendations (ui : widgets) (selected_movie : string)
    (names : list (option string)) (posters : list string) : M page unit :=
  emit Body (Success selected_movie);;
  emit Body (Markdown Separator);;
  emit Body (Columns 5);;
  for_each (enumerate (zip names posters))
    (λ entry _, let '(i, (name, poster)) := entry in
                if (i <? 5)%nat then show_column ui i name poster else ret tt)
    tt.

(** Lines 123-146: what a press of the button does *)
Definition on_click (ui : widgets) (selected_movie : string) : M page unit :=
  if negb (String.eqb selected_movie "") then
    let* '(recommended_movie_names, recommended_movie_posters) :=
      lift (recommend selected_movie) in
    if negb (bool_decide (recommended_movie_names = []))
       && (0 <? length recommended_movie_names)%nat
    then show_recommendations ui selected_movie
           recommended_movie_names recommended_movie_posters
    else emit Body (Warning NoRecommendationsFound)
  else emit Body (Warning SelectMovieFirst).

(** Lines 160-201: the sidebar *)
Definition sidebar (ui : widgets) (movies : DataFrame) : M page unit :=
  emit Sidebar (Markdown AboutHeading);;
  emit Sidebar (Markdown AboutText);;
  emit Sidebar (Markdown StatsHeading);;
  try_except
    (emit Sidebar (Metric (TotalMovies (length (rows movies))));;
     emit Sidebar (Metric FeaturesUsed))
    [ (λ _, true,
       λ _, emit Sidebar (Metric TotalMoviesLoading);; emit Sidebar (Metric FeaturesUsed)) ];;
  emit Sidebar (Markdown HowHeading);;
  emit Sidebar (Markdown HowText);;
  emit Sidebar Checkbox;;
  if debug ui then
    emit Sidebar (Markdown DebugHeading);;
    emit Sidebar (Write (DataColumns (columns movies)));;
    emit Sidebar (Write (DataShape (length (rows movies)) (size (columns movies))));;
    let* ids := lift (df_column movies "id" movie_id) in
    emit Sidebar (Write (SampleIds (take 5 ids)))
  else ret tt.

(** [main], lines 105-201: what follows the checks.  The local variables
    [movies] and [similarity] are the two objects of the world.  The
    spinner of line 124 leaves no element. *)
Definition main_rest (ui : widgets) : M page unit :=
  let* movies := lift (gets movies_df) in
  let* movie_list := lift (movie_list movies) in
  if (length movie_list =? 0)%nat then emit Body (Error NoMoviesFound)
  else
    emit Body (Selectbox movie_list);;
    let selected_movie := selectbox movie_list (choice ui) in
    emit Body (Markdown LineBreak);;
    emit Body Button;;
    (if clicked ui then on_click ui selected_movie else ret tt);;
    emit Body (Markdown Separator);;
    emit Body (Markdown FooterText);;
    sidebar ui movies.

(** The requests that [fetch_poster] sends for an identifier. *)
Definition request_of (id : id_cell) : list string :=
  match id with
  | IdInt n => if (n =? 0)%Z then [] else [api_url n]
  | _ => []
  end.

(** A page on which nothing is drawn yet. *)
Definition blank (w : world) : page := {| session := w; elements := [] |}.

(** A user who presses the button on the first option, with a browser that
    shows every image. *)
Definition press : widgets :=
  {| choice := 0; clicked := true; debug := false; image_error := λ _, None |}.

(** A user who only looks, with the debug box ticked. *)
Definition look : widgets :=
  {| choice := 0; clicked := false; debug := true; image_error := λ _, None |}.

(** The page with more elements drawn, and the page around another world. *)
Definition draw (more : list (place * element)) (p : page) : page :=
  {| session := session p; elements := elements p ++ more |}.

Definition on_world (w : world) (p : page) : page :=
  {| session := w; elements := elements p |}.

(** What a column shows for a name and a poster: the name, and the poster
    or, where the poster fails to load, the error and the fallback image. *)
Definition drawn_in_column (ui : widgets) (i : nat) (name : option string)
    (poster : string) : list (place * element) :=
  (Column i, Markdown (Bold name)) ::
  match image_error ui poster with
  | None => [(Column i, Image poster)]
  | Some e => [(Column i, Error (FailedToLoadImage e)); (Column i, Image image_fallback)]
  end.

Definition columns_drawn (ui : widgets)
    (entries : list (nat * (option string * string))) : list (place * element) :=
  entries ≫= λ entry, drawn_in_column ui entry.1 entry.2.1 entry.2.2.

(** The fallback image loads, and an image that does not load fails with
    an instance of [Exception]. *)
Definition tolerant (ui : widgets) : Prop :=
  image_error ui image_fallback = None ∧
  ∀ url e, image_error ui url = Some e → is_Exception e = true.

(** A one-movie table with its one-by-one matrix. *)
Definition single : world :=
  with_data (table [("A", 1%Z)]) [[1.0%float]] fresh.

(** A table in which a movie has the empty text as its title. *)
Definition untitled : world :=
  with_data (table [("B", 2%Z); ("", 1%Z); ("A", 3%Z)]) scenario_matrix fresh.

(** A table whose one row has no title. *)
Definition nameless : world :=
  with_data {| columns := {["title"]} ∪ {["id"]};
               rows := [{| label := 0; title := None; movie_id := IdInt 1 |}] |}
            [[1.0%float]] fresh.

(** A browser that loads no image at all, and a press of the button. *)
Definition offline : widgets :=
  {| choice := 0; clicked := true; debug := false;
     image_error := λ _, Some RequestException |}.

(* ================================================================= *)
(** ** The order of binary64 numbers *)

Section SpecFloatOrder.
Implicit Types a b c : spec_float.

Lemma SFcompare_refl a : SFnan a = false → SFcompare a a = Some Eq.
Proof.
  destruct a as [s|s| |s m e]; simpl; try done.
  - by destruct s.
  - intros _. destruct s; rewrite Z.compare_refl; fold (Pos.compare m m);
      by rewrite Pos.compare_refl.
Qed.

Ltac cmp_cases :=
  repeat match goal with
  | |- context [Z.compare ?x ?y] => destruct (Z.compare_spec x y); subst
  | H : context [Z.compare ?x ?y] |- _ => destruct (Z.compare_spec x y); subst
  | |- context [Pos.compare_cont Eq ?x ?y] =>
      change (Pos.compare_cont Eq x y) with (Pos.compare x y);
      destruct (Pos.compare_spec x y); subst
  | H : context [Pos.compare_cont Eq ?x ?y] |- _ =>
      change (Pos.compare_cont Eq x y) with (Pos.compare x y) in H;
      destruct (Pos.compare_spec x y); subst
  end; simpl in *; try done; try lia.

Lemma SFltb_asym a b : SFltb a b = true → SFltb b a = false.
Proof.
  unfold SFltb.
  destruct a as [[]|[]| |[] ? ?], b as [[]|[]| |[] ? ?]; simpl; try done; cmp_cases.
Qed.

Lemma SFltb_negtrans a b c :
  SFnan b = false →
  SFltb a b = false → SFltb b c = false → SFltb a c = false.
Proof.
  unfold SFltb.
  destruct a as [[]|[]| |[] ? ?], b as [[]|[]| |[] ? ?], c as [[]|[]| |[] ? ?];
    simpl; try done; intros _; cmp_cases.
Qed.

Lemma SFeqb_ltb a b :
  SFnan a = false → SFnan b = false →
  SFeqb a b = true ↔ SFltb a b = false ∧ SFltb b a = false.
Proof.
  unfold SFltb, SFeqb.
  destruct a as [[]|[]| |[] ? ?], b as [[]|[]| |[] ? ?]; simpl; intros Ha Hb; try done;
    (split; [intros H; split|intros [H1 H2]]); try done; cmp_cases.
Qed.
End SpecFloatOrder.

Section FloatOrder.
Implicit Types x y z : float.

Lemma is_nan_spec x : PrimFloat.is_nan x = SFnan (Prim2SF x).
Proof.
  unfold PrimFloat.is_nan. rewrite FloatAxioms.eqb_spec. unfold SFeqb.
  destruct (SFnan (Prim2SF x)) eqn:E.
  - destruct (Prim2SF x); done.
  - by rewrite SFcompare_refl.
Qed.

Lemma ltb_asym x y : (x <? y)%float = true → (y <? x)%float = false.
Proof. rewrite !FloatAxioms.ltb_spec. apply SFltb_asym. Qed.

Lemma ltb_irrefl x : (x <? x)%float = false.
Proof. destruct (x <? x)%float eqn:E; [by rewrite (ltb_asym _ _ E) in E | done]. Qed.

Lemma ltb_negtrans x y z :
  number y →
  (x <? y)%float = false → (y <? z)%float = false → (x <? z)%float = false.
Proof. unfold number. rewrite is_nan_spec, !FloatAxioms.ltb_spec. apply SFltb_negtrans. Qed.

Lemma eqb_ltb x y :
  number x → number y →
  (x =? y)%float = true ↔ (x <? y)%float = false ∧ (y <? x)%float = false.
Proof.
  unfold number. rewrite !is_nan_spec, FloatAxioms.eqb_spec, !FloatAxioms.ltb_spec.
  apply SFeqb_ltb.
Qed.
End FloatOrder.

(* ================================================================= *)
(** ** Sorting *)

Section Sorting.
Context {A : Type} (key : A → float).
Implicit Types (x y : A) (l : list A).

Lemma insert_by_Permutation x l : insert_by key x l ≡ₚ x :: l.
Proof.
  induction l as [|y l IH]; simpl; [done|].
  destruct (key y <? key x)%float; [|done].
  rewrite IH. apply Permutation_swap.
Qed.

Lemma stable_sort_Permutation l : stable_sort key l ≡ₚ l.
Proof.
  induction l as [|x l IH]; simpl; [done|].
  by rewrite insert_by_Permutation, IH.
Qed.

Lemma sorted_Permutation l reverse : sorted l reverse key ≡ₚ l.
Proof.
  unfold sorted. destruct reverse.
  - by rewrite <- Permutation_rev, stable_sort_Permutation, <- Permutation_rev.
  - apply stable_sort_Permutation.
Qed.

Lemma sorted_length l reverse : length (sorted l reverse key) = length l.
Proof. apply Permutation_length, sorted_Permutation. Qed.

Variable before : A → A → Prop.

Lemma insert_by_sorted x l :
  Forall (λ y, number (key y)) l →
  Forall (before x) l →
  StronglySorted (earlier key before) l →
  StronglySorted (earlier key before) (insert_by key x l).
Proof.
  induction l as [|y l IH]; simpl; intros Hnum Hbef Hsort.
  - repeat constructor.
  - apply Forall_cons in Hnum as [Hy Hnum]. apply Forall_cons in Hbef as [Hxy Hbef].
    apply StronglySorted_inv in Hsort as [Hsort Hall].
    destruct (key y <? key x)%float eqn:E.
    + constructor; [by apply IH|].
      rewrite insert_by_Permutation. constructor; [by left|done].
    + constructor; [by constructor|].
      constructor; [by right|].
      rewrite Forall_forall in Hall, Hbef |- *. intros z Hz.
      right. split; [|by apply Hbef].
      apply (ltb_negtrans _ (key y)); [done| |done].
      destruct (Hall z Hz) as [Hlt|[Hge _]]; [by apply ltb_asym|done].
Qed.

Lemma stable_sort_sorted l :
  Forall (λ y, number (key y)) l →
  StronglySorted before l →
  StronglySorted (earlier key before) (stable_sort key l).
Proof.
  induction l as [|x l IH]; simpl; intros Hnum Hsort; [constructor|].
  apply Forall_cons in Hnum as [Hx Hnum].
  apply StronglySorted_inv in Hsort as [Hsort Hall].
  apply insert_by_sorted.
  - by rewrite stable_sort_Permutation.
  - by rewrite stable_sort_Permutation.
  - by apply IH.
Qed.
End Sorting.

Section SortedLists.
Context {A : Type}.
Implicit Types (R : A → A → Prop) (l : list A).

Lemma StronglySorted_rev R l :
  StronglySorted R l → StronglySorted (flip R) (rev l).
Proof.
  induction 1 as [|x l Hsort IH Hall]; simpl; [constructor|].
  apply StronglySorted_app_2; [|done|repeat constructor].
  intros y z Hy Hz. apply list_elem_of_singleton in Hz as ->.
  rewrite Forall_forall in Hall. apply Hall.
  by apply list_elem_of_In, in_rev, list_elem_of_In.
Qed.

Lemma StronglySorted_lookup_2 R l :
  (∀ i j x y, i < j → l !! i = Some x → l !! j = Some y → R x y) →
  StronglySorted R l.
Proof.
  induction l as [|x l IH]; intros H; constructor.
  - apply IH. intros i j y z Hij Hy Hz. apply (H (S i) (S j)); [lia|done..].
  - apply Forall_lookup. intros j y Hy. apply (H 0 (S j)); [lia|done..].
Qed.

Lemma StronglySorted_lookup_1 R l i j x y :
  StronglySorted R l → i < j → l !! i = Some x → l !! j = Some y → R x y.
Proof.
  intros Hsort. revert i j. induction Hsort as [|z l Hsort IH Hall]; intros i j Hij Hx Hy.
  - done.
  - destruct j as [|j]; [lia|]. simpl in Hy. destruct i as [|i]; simpl in Hx.
    + injection Hx as ->. rewrite Forall_lookup in Hall. by eapply Hall.
    + apply (IH i j); [lia|done..].
Qed.

Lemma StronglySorted_weaken R R' (P : A → Prop) l :
  (∀ x y, P x → P y → R x y → R' x y) →
  Forall P l → StronglySorted R l → StronglySorted R' l.
Proof.
  intros HR HP Hsort. induction Hsort as [|x l Hsort IH Hall]; [constructor|].
  apply Forall_cons in HP as [Hx HP]. constructor; [by apply IH|].
  rewrite Forall_forall in Hall, HP |- *. intros y Hy. apply HR; auto.
Qed.
End SortedLists.

Section Ranking.
Implicit Types (row : list float).

Lemma length_enumerate {A} (l : list A) : length (enumerate l) = length l.
Proof. apply length_imap. Qed.

Lemma lookup_enumerate {A} (l : list A) i : enumerate l !! i = (λ x, (i, x)) <$> l !! i.
Proof. apply list_lookup_imap. Qed.

Lemma enumerate_sorted {A} (l : list A) :
  StronglySorted (λ a b, a.1 < b.1) (enumerate l).
Proof.
  apply StronglySorted_lookup_2. intros i j a b Hij Ha Hb.
  rewrite lookup_enumerate in Ha, Hb.
  destruct (l !! i), (l !! j); simplify_eq/=. done.
Qed.

Lemma enumerate_numbers row :
  Forall number row → Forall (λ a : nat * float, number a.2) (enumerate row).
Proof.
  intros H. apply Forall_lookup. intros i a Ha. rewrite lookup_enumerate in Ha.
  destruct (row !! i) as [x|] eqn:E; simplify_eq/=.
  rewrite Forall_lookup in H. by eapply H.
Qed.

Lemma distances_Permutation row : distances_of row ≡ₚ enumerate row.
Proof. apply sorted_Permutation. Qed.

Lemma length_distances row : length (distances_of row) = length row.
Proof. unfold distances_of. by rewrite sorted_length, length_enumerate. Qed.

Lemma distances_ranked row :
  Forall number row → StronglySorted ranked (distances_of row).
Proof.
  intros Hnum. unfold distances_of, sorted.
  pose proof (enumerate_numbers row Hnum) as Hnum'.
  eapply (StronglySorted_weaken _ _ (λ a : nat * float, number a.2)); last first.
  - apply StronglySorted_rev, (stable_sort_sorted snd (flip (λ a b : nat * float, a.1 < b.1))).
    + by rewrite <- Permutation_rev.
    + apply StronglySorted_rev, enumerate_sorted.
  - by rewrite <- Permutation_rev, stable_sort_Permutation, <- Permutation_rev.
  - intros a b Ha Hb [Hlt|[Hge Hidx]]; unfold ranked; [by left|].
    destruct (b.2 <? a.2)%float eqn:E; [by left|right].
    split; [|done]. by apply eqb_ltb.
Qed.
End Ranking.

(* ================================================================= *)
(** ** The ranking of line 63 *)

(** C4: the (row index, score) pairs of the queried row are a rearrangement
    of the row's entries in which scores descend, and two pairs with equal
    scores stand in the order of their rows: of two entries of the result,
    the earlier one never has the smaller score, and with equal scores it
    has the smaller row index.  The scores are numbers (no NaN). *)
Theorem distances_sorted_stable (row : list float) :
  Forall number row →
  distances_of row ≡ₚ enumerate row ∧
  StronglySorted ranked (distances_of row) ∧
  ∀ p q a b, p < q → distances_of row !! p = Some a → distances_of row !! q = Some b →
             (a.2 <? b.2)%float = false ∧ ((a.2 =? b.2)%float = true → a.1 < b.1).
Proof.
  intros Hnum. split; [apply distances_Permutation|].
  split; [by apply distances_ranked|].
  intros p q a b Hpq Ha Hb.
  assert (∀ c, c ∈ distances_of row → number c.2) as Hnumber.
  { intros c Hc. rewrite distances_Permutation in Hc.
    pose proof (enumerate_numbers row Hnum) as H. rewrite Forall_forall in H. by apply H. }
  pose proof (Hnumber a (list_elem_of_lookup_2 _ _ _ Ha)) as Hna.
  pose proof (Hnumber b (list_elem_of_lookup_2 _ _ _ Hb)) as Hnb.
  destruct (StronglySorted_lookup_1 ranked _ p q a b (distances_ranked row Hnum) Hpq Ha Hb)
    as [Hlt|[Heq Hidx]].
  - split; [by apply ltb_asym|]. intros Heq.
    apply eqb_ltb in Heq as [_ Hge]; [congruence|done..].
  - split; [|done]. by apply eqb_ltb in Heq as [? _].
Qed.

Lemma distances_sorted_stable_witness :
  Forall number [0.1; 0.5; 0.5; 0.9; 0.1]%float ∧
  distances_of [0.1; 0.5; 0.5; 0.9; 0.1]%float
  = [(3, 0.9%float); (1, 0.5%float); (2, 0.5%float); (0, 0.1%float); (4, 0.1%float)] ∧
  StronglySorted ranked (distances_of [0.1; 0.5; 0.5; 0.9; 0.1]%float).
Proof.
  split; [repeat constructor|]. split; [reflexivity|].
  apply (distances_sorted_stable [0.1; 0.5; 0.5; 0.9; 0.1]%float). repeat constructor.
Defined.

(* ================================================================= *)
(** ** The poster lookup *)

Section Posters.
Implicit Types (w : world) (id : id_cell).

Lemma with_requested_id w : with_requested (requested w ++ []) w = w.
Proof. destruct w. unfold with_requested. simpl. by rewrite app_nil_r. Qed.

Lemma with_requested_app w urls urls' :
  with_requested (requested (with_requested (requested w ++ urls) w) ++ urls')
    (with_requested (requested w ++ urls) w)
  = with_requested (requested w ++ (urls ++ urls')) w.
Proof. unfold with_requested. simpl. by rewrite app_assoc. Qed.

Lemma requested_more_refl w : requested_more w w.
Proof. exists []. by rewrite with_requested_id. Qed.

Lemma requested_more_trans w1 w2 w3 :
  requested_more w1 w2 → requested_more w2 w3 → requested_more w1 w3.
Proof.
  intros [u1 ->] [u2 ->]. exists (u1 ++ u2). apply with_requested_app.
Qed.

Lemma requested_more_data w w' : requested_more w w' → data_unchanged w w'.
Proof. by intros [urls ->]. Qed.

Ltac run_fetch :=
  cbv beta iota delta [fetch_poster try_except bind ret raise py_int requests_get
    response_json py_contains py_getitem modify gets st_error]; simpl.

(** The lookup returns a URL whatever the identifier and the network do,
    and leaves at most one more request in the world. *)
Lemma fetch_poster_returns id w :
  ∃ url urls, fetch_poster id w = (Ret url, with_requested (requested w ++ urls) w).
Proof.
  assert (∀ url, ∃ url' urls,
    (Ret url, w) = (Ret url' : result string, with_requested (requested w ++ urls) w)) as Hsame.
  { intros url. exists url, []. by rewrite with_requested_id. }
  assert (∀ url u, ∃ url' urls,
    (Ret url, log_request u w)
    = (Ret url' : result string, with_requested (requested w ++ urls) w)) as Hlog.
  { intros url u. by exists url, [u]. }
  run_fetch. destruct id as [z| |]; simpl; [|apply Hsame..].
  destruct (z =? 0)%Z; simpl; [apply Hsame|].
  destruct (network w (api_url z)) as [| |[st c]]; simpl; [apply Hlog..|].
  destruct (st =? 200)%Z; simpl; [|apply Hlog].
  destruct c as [[]|[items|items|v]]; simpl; try apply Hlog.
  - destruct (dict_get "poster_path" items) as [v|]; case_bool_decide; simpl;
      try apply Hlog.
    destruct (py_bool v); apply Hlog.
  - case_bool_decide; simpl; apply Hlog.
  - destruct v; simpl; try apply Hlog. case_bool_decide; simpl; apply Hlog.
Qed.

(** The URL depends on the network only. *)
Lemma fetch_poster_value w w' id :
  network w' = network w → value (fetch_poster id) w' = value (fetch_poster id) w.
Proof.
  intros Hnet. unfold value. run_fetch. destruct id as [z| |]; simpl; try done.
  destruct (z =? 0)%Z; simpl; [done|]. rewrite Hnet.
  destruct (network w (api_url z)) as [| |[st c]]; simpl; try done.
  destruct (st =? 200)%Z; simpl; [|done].
  destruct c as [[]|[items|items|v]]; simpl; try done.
  - destruct (dict_get "poster_path" items) as [v|]; case_bool_decide; simpl;
      try done.
    by destruct (py_bool v).
  - by case_bool_decide.
  - destruct v; simpl; try done. by case_bool_decide.
Qed.

Lemma poster_with_requested urls w id : poster (with_requested urls w) id = poster w id.
Proof. unfold poster. by rewrite (fetch_poster_value w). Qed.

Lemma fetch_poster_run id w :
  ∃ urls, fetch_poster id w = (Ret (poster w id), with_requested (requested w ++ urls) w).
Proof.
  destruct (fetch_poster_returns id w) as (url & urls & H).
  exists urls. unfold poster, value. by rewrite H.
Qed.
End Posters.

(** C7: [fetch_poster] never raises.  For every identifier (also NaN, zero
    or an infinity) and every outcome of the request (timeout, network
    error, status other than 200, a body that is not JSON, JSON without a
    poster path or with an empty one) it returns a URL: the image host
    followed by the poster path when the API gives one, and one of the
    placeholder URLs in every other case. *)
Theorem fetch_poster_never_raises (movie_id : id_cell) (w : world) :
  ∃ url, value (fetch_poster movie_id) w = Ret url ∧
         match poster_path_of w movie_id with
         | Some path => url = image_host +:+ py_str path
         | None => is_placeholder url
         end.
Proof.
  assert (∀ url : string, url ∈ [no_poster; timeout_poster; error_poster; no_image] →
          ∃ url', Ret url = Ret url' ∧ is_placeholder url') as Hp.
  { intros url Hurl. by exists url. }
  unfold value, poster_path_of.
  cbv beta iota delta [fetch_poster try_except bind ret raise py_int requests_get
      response_json py_contains py_getitem modify gets]; simpl.
  destruct movie_id as [z| |]; simpl; [|apply Hp; set_solver..].
  destruct (z =? 0)%Z; simpl; [apply Hp; set_solver|].
  destruct (network w (api_url z)) as [| |[st c]]; simpl; [apply Hp; set_solver..|].
  destruct (st =? 200)%Z; simpl; [|apply Hp; set_solver].
  destruct c as [[]|[items|items|v]]; simpl; try (apply Hp; set_solver).
  - destruct (dict_get "poster_path" items) as [v|] eqn:Hget; case_bool_decide as Hdec;
      simpl; try (apply Hp; set_solver).
    + destruct (py_bool v); simpl; [by eexists|apply Hp; set_solver].
    + destruct Hdec. by eexists.
  - case_bool_decide; simpl; apply Hp; set_solver.
  - destruct v; simpl; try (apply Hp; set_solver).
    case_bool_decide; simpl; apply Hp; set_solver.
Qed.

Example fetch_poster_found :
  value (fetch_poster (IdInt 19995))
    (always (ok (JDict [("id", PInt 19995); ("poster_path", PStr "/kyeqWdyUXW608qlYkRqosgbbJyK.jpg")])))
  = Ret "https://image.tmdb.org/t/p/w500/kyeqWdyUXW608qlYkRqosgbbJyK.jpg".
Proof. reflexivity. Qed.

Example fetch_poster_request :
  requested (after (fetch_poster (IdInt 19995)) (always TimedOut))
  = ["https://api.themoviedb.org/3/movie/19995?api_key=8265bd1679663a7ea12ac168da84d2e8&language=en-US"].
Proof. reflexivity. Qed.

Example fetch_poster_timeout :
  value (fetch_poster (IdInt 19995)) (always TimedOut) = Ret timeout_poster.
Proof. reflexivity. Qed.

Example fetch_poster_network_error :
  value (fetch_poster (IdInt 19995)) (always Failed) = Ret error_poster.
Proof. reflexivity. Qed.

Example fetch_poster_not_found :
  value (fetch_poster (IdInt 19995))
    (always (Responded {| status_code := 404; content := Json (JDict []) |}))
  = Ret no_poster.
Proof. reflexivity. Qed.

Example fetch_poster_not_json :
  value (fetch_poster (IdInt 19995))
    (always (Responded {| status_code := 200; content := NotJson false |}))
  = Ret error_poster ∧
  value (fetch_poster (IdInt 19995))
    (always (Responded {| status_code := 200; content := NotJson true |}))
  = Ret no_image.
Proof. split; reflexivity. Qed.

Example fetch_poster_null_path :
  value (fetch_poster (IdInt 19995)) (always (ok (JDict [("poster_path", PNull)])))
  = Ret no_poster ∧
  value (fetch_poster (IdInt 19995)) (always (ok (JDict [("poster_path", PStr "")])))
  = Ret no_poster ∧
  value (fetch_poster (IdInt 19995)) (always (ok (JDict [("id", PInt 19995)])))
  = Ret no_poster.
Proof. repeat split; reflexivity. Qed.

Example fetch_poster_no_object :
  value (fetch_poster (IdInt 19995)) (always (ok (JList [PStr "poster_path"])))
  = Ret no_image ∧
  value (fetch_poster (IdInt 19995)) (always (ok (JScalar (PInt 7)))) = Ret no_image.
Proof. split; reflexivity. Qed.

Example fetch_poster_no_id :
  fetch_poster IdNaN fresh = (Ret no_poster, fresh) ∧
  fetch_poster (IdInt 0) fresh = (Ret no_poster, fresh) ∧
  fetch_poster IdInf fresh = (Ret no_image, fresh).
Proof. repeat split; reflexivity. Qed.

(* ================================================================= *)
(** ** Runs of the recommender *)

Section Runs.
Context {A B : Type}.
Implicit Types (m : M world A) (k : A → M world B) (w : world).

Lemma bind_Ret m k w a w' : m w = (Ret a, w') → bind m k w = k a w'.
Proof. unfold bind. by intros ->. Qed.

Lemma bind_Raise m k w e w' : m w = (Raise e, w') → bind m k w = (Raise e, w').
Proof. unfold bind. by intros ->. Qed.
End Runs.

Section Lookup.
Implicit Types (df : DataFrame) (w : world) (movie : string).

Lemma filter_none {X} (P : X → Prop) `{∀ x, Decision (P x)} (l : list X) :
  (∀ x, x ∈ l → ¬ P x) → filter P l = [].
Proof.
  induction l as [|x l IH]; intros Hl; [done|].
  rewrite filter_cons, decide_False; [|apply Hl; by left].
  apply IH. intros y Hy. apply Hl. by right.
Qed.

Lemma df_mask_rows df movie :
  rows (df_mask df ((λ t, bool_decide (t = Some movie)) <$> (title <$> rows df)))
  = filter (λ r, title r = Some movie) (rows df).
Proof.
  unfold df_mask. simpl. induction (rows df) as [|r l IH]; [done|].
  simpl. rewrite filter_cons. rewrite (filter_cons (λ r, title r = Some movie)).
  simpl. case_bool_decide; repeat case_decide; simplify_eq/=; by rewrite ?IH.
Qed.

Lemma lookup_index_state df movie w : after (lookup_index df movie) w = w.
Proof.
  unfold after, lookup_index, df_column, df_index_0, bind, ret, raise.
  case_decide; simpl; [|done].
  repeat (case_match; simplify_eq/=); done.
Qed.

Lemma lookup_index_no_column df movie w :
  "title" ∉ columns df → lookup_index df movie w = (Raise (KeyError "title"), w).
Proof. intros H. unfold lookup_index, df_column, bind, raise. by case_decide. Qed.

Lemma lookup_index_absent df movie w :
  "title" ∈ columns df →
  (∀ r, r ∈ rows df → title r ≠ Some movie) →
  lookup_index df movie w = (Ret None, w).
Proof.
  intros Hcol Habs. unfold lookup_index, df_column, bind, ret.
  case_decide; [simpl|done].
  assert (rows (df_mask df ((λ t, bool_decide (t = Some movie)) <$> (title <$> rows df)))
          = []) as Hrows.
  { rewrite df_mask_rows. by apply filter_none. }
  unfold df_empty. by rewrite Hrows.
Qed.

Lemma lookup_index_first df movie w pre r post :
  "title" ∈ columns df →
  rows df = pre ++ r :: post →
  (∀ x, x ∈ pre → title x ≠ Some movie) →
  title r = Some movie →
  lookup_index df movie w = (Ret (Some (label r)), w).
Proof.
  intros Hcol Hrows Hpre Hr. unfold lookup_index, df_column, bind, ret.
  case_decide; [simpl|done].
  assert (rows (df_mask df ((λ t, bool_decide (t = Some movie)) <$> (title <$> rows df)))
          = r :: filter (λ r, title r = Some movie) post) as Hm.
  { rewrite df_mask_rows, Hrows, filter_app, filter_cons.
    by rewrite filter_none, decide_True. }
  unfold df_empty, df_index_0. rewrite Hm. simpl.
  rewrite bool_decide_eq_false_2; [done|]. simpl. set_solver.
Qed.

(** A title of the table has a first row. *)
Lemma first_row (l : list Movie) movie :
  (∃ r, r ∈ l ∧ title r = Some movie) →
  ∃ pre r post, l = pre ++ r :: post ∧ (∀ x, x ∈ pre → title x ≠ Some movie)
                ∧ title r = Some movie.
Proof.
  induction l as [|x l IH]; intros (r & Hin & Hr); [by apply elem_of_nil in Hin|].
  destruct (decide (title x = Some movie)) as [Hx|Hx].
  - exists [], x, l. split; [done|]. split; [|done]. intros y Hy. by apply elem_of_nil in Hy.
  - apply elem_of_cons in Hin as [->|Hin]; [done|].
    destruct IH as (pre & r' & post & -> & Hpre & Hr'); [by exists r|].
    exists (x :: pre), r', post. split; [done|]. split; [|done].
    intros y Hy. apply elem_of_cons in Hy as [->|Hy]; auto.
Qed.

Lemma ndarray_getitem_state (a : list (list float)) index w :
  after (ndarray_getitem a index) w = w.
Proof.
  unfold after, ndarray_getitem, ret, raise. case_decide; [|done].
  by destruct (a !! _).
Qed.

Lemma ndarray_getitem_value (a : list (list float)) index w :
  value (ndarray_getitem a index) w = Raise IndexError
  ∨ ∃ row, row ∈ a ∧ value (ndarray_getitem a index) w = Ret row.
Proof.
  unfold value, ndarray_getitem, ret, raise. case_decide; [|by left].
  destruct (a !! _) as [row|] eqn:E; [right|by left].
  exists row. split; [|done]. by eapply list_elem_of_lookup_2.
Qed.

Lemma ndarray_getitem_in_range (a : list (list float)) (k : nat) row w :
  a !! k = Some row → ndarray_getitem a (Z.of_nat k) w = (Ret row, w).
Proof.
  intros Hk. unfold ndarray_getitem, ret, raise.
  apply lookup_lt_Some in Hk as Hlt.
  destruct (Z.of_nat k <? 0)%Z eqn:E; [lia|].
  case_decide; [|lia]. by rewrite Nat2Z.id, Hk.
Qed.
End Lookup.

Section Loop.
Implicit Types (df : DataFrame) (w : world) (i : nat * float).
Implicit Types (ns : list (option string)) (ps : list string).

Lemma loop_body_cases df i ns ps w :
  (∃ m urls, rows df !! i.1 = Some m ∧ "title" ∈ columns df ∧ "id" ∈ columns df ∧
     loop_body df i (ns, ps) w
     = (Ret (ns ++ [title m], ps ++ [poster w (movie_id m)]),
        with_requested (requested w ++ urls) w))
  ∨ (∃ e, is_Exception e = true ∧ loop_body df i (ns, ps) w = (Raise e, w) ∧
       (rows df !! i.1 = None ∨ "title" ∉ columns df ∨ "id" ∉ columns df)).
Proof.
  destruct (rows df !! i.1) as [m|] eqn:Hm.
  - destruct (decide ("title" ∈ columns df)) as [Ht|Ht];
      [destruct (decide ("id" ∈ columns df)) as [Hi|Hi]|].
    + left. destruct (fetch_poster_run (movie_id m) w) as [urls Hf].
      exists m, urls. repeat split; try done.
      unfold loop_body, df_iloc, row_get, bind, ret. rewrite Hm.
      rewrite !decide_True by done. by rewrite Hf.
    + right. exists (KeyError "id"). repeat split; [|auto].
      unfold loop_body, df_iloc, row_get, bind, ret, raise. rewrite Hm.
      by rewrite decide_True, decide_False by done.
    + right. exists (KeyError "title"). repeat split; [|auto].
      unfold loop_body, df_iloc, row_get, bind, ret, raise. rewrite Hm.
      by rewrite decide_False by done.
  - right. exists IndexError. repeat split; [|auto].
    unfold loop_body, df_iloc, row_get, bind, ret, raise. by rewrite Hm.
Qed.

Lemma for_each_cases df picks : ∀ ns ps w r w',
  for_each picks (loop_body df) (ns, ps) w = (r, w') →
  requested_more w w' ∧
  match r with
  | Ret (ns', ps') =>
      ∃ ms, Forall2 (λ i m, rows df !! i.1 = Some m) picks ms ∧
            ns' = ns ++ (title <$> ms) ∧
            ps' = ps ++ ((λ m, poster w (movie_id m)) <$> ms)
  | Raise e =>
      is_Exception e = true ∧
      (Exists (λ i, rows df !! i.1 = None) picks
       ∨ "title" ∉ columns df ∨ "id" ∉ columns df)
  end.
Proof.
  induction picks as [|i picks IH]; intros ns ps w r w' Hrun; simpl in Hrun.
  - unfold ret in Hrun. injection Hrun as <- <-.
    split; [apply requested_more_refl|]. exists []. by rewrite !app_nil_r.
  - destruct (loop_body_cases df i ns ps w)
      as [(m & urls & Hm & Ht & Hi & Hb)|(e & He & Hb & Hwhy)].
    + rewrite (bind_Ret _ _ _ _ _ Hb) in Hrun. apply IH in Hrun as [Hmore Hr].
      split. { eapply requested_more_trans; [|done]. by exists urls. }
      destruct r as [[ns' ps']|e].
      * destruct Hr as (ms & HF & -> & ->). exists (m :: ms).
        split; [by constructor|]. rewrite <- !app_assoc. simpl.
        split; [done|]. do 2 f_equal. apply list_fmap_ext.
        intros k x _. apply poster_with_requested.
      * destruct Hr as [He Hwhy]. split; [done|].
        destruct Hwhy as [Hex|Hcol]; [left; by right|by right].
    + rewrite (bind_Raise _ _ _ _ _ Hb) in Hrun. injection Hrun as <- <-.
      split; [apply requested_more_refl|]. split; [done|].
      destruct Hwhy as [H|H]; [left; by left|by right].
Qed.

Lemma length_slice {X} (l : list X) lo hi :
  length (slice l lo hi) = (hi - lo) `min` (length l - lo).
Proof. unfold slice. by rewrite length_take, length_drop. Qed.

Lemma top_five_cases df matrix index w r w' :
  top_five df matrix index w = (r, w') →
  requested_more w w' ∧
  match r with
  | Ret (ns, ps) =>
      ∃ row ms, value (ndarray_getitem matrix index) w = Ret row ∧
                Forall2 (λ i m, rows df !! i.1 = Some m) (slice (distances_of row) 1 6) ms ∧
                ns = title <$> ms ∧ ps = (λ m, poster w (movie_id m)) <$> ms
  | Raise e => is_Exception e = true
  end.
Proof.
  unfold top_five. intros Hrun.
  pose proof (ndarray_getitem_state matrix index w) as Hst.
  destruct (ndarray_getitem_value matrix index w) as [Hv|(row & _ & Hv)];
    unfold after, value in Hst, Hv;
    destruct (ndarray_getitem matrix index w) as [v w1] eqn:Hget; simplify_eq/=.
  - rewrite (bind_Raise _ _ _ _ _ Hget) in Hrun. injection Hrun as <- <-.
    split; [apply requested_more_refl|done].
  - rewrite (bind_Ret _ _ _ _ _ Hget) in Hrun.
    apply for_each_cases in Hrun as [Hmore Hr]. split; [done|].
    destruct r as [[ns ps]|e]; [|by destruct Hr].
    destruct Hr as (ms & HF & -> & ->). exists row, ms. unfold value. by rewrite Hget.
Qed.
End Loop.

Section Recommend.
Implicit Types (w : world) (movie : string).
Implicit Types (ns : list (option string)) (ps : list string).

(** What a run of the body of [recommend] can be. *)
Lemma recommend_body_cases movie w r w' :
  recommend_body movie w = (r, w') →
  requested_more w w' ∧
  match r with
  | Ret (ns, ps) =>
      (lookup_index (movies_df w) movie w = (Ret None, w) ∧ ns = [] ∧ ps = [])
      ∨ ∃ index row ms,
          lookup_index (movies_df w) movie w = (Ret (Some index), w) ∧
          value (ndarray_getitem (similarity_matrix w) index) w = Ret row ∧
          Forall2 (λ i m, rows (movies_df w) !! i.1 = Some m)
            (slice (distances_of row) 1 6) ms ∧
          ns = title <$> ms ∧ ps = (λ m, poster w (movie_id m)) <$> ms
  | Raise e => is_Exception e = true
  end.
Proof.
  unfold recommend_body, gets. intros Hrun.
  rewrite (bind_Ret _ _ w (movies_df w) w) in Hrun by done.
  rewrite (bind_Ret _ _ w (similarity_matrix w) w) in Hrun by done.
  pose proof (lookup_index_state (movies_df w) movie w) as Hst. unfold after in Hst.
  destruct (lookup_index (movies_df w) movie w) as [[[index|]|e] w1] eqn:Hl;
    simpl in Hst; subst w1.
  - rewrite (bind_Ret _ _ _ _ _ Hl) in Hrun.
    apply top_five_cases in Hrun as [Hmore Hr]. split; [done|].
    destruct r as [[ns ps]|e]; [|done].
    destruct Hr as (row & ms & ? & ? & ? & ?). right. by exists index, row, ms.
  - rewrite (bind_Ret _ _ _ _ _ Hl) in Hrun. unfold ret in Hrun.
    injection Hrun as <- <-. split; [apply requested_more_refl|]. by left.
  - rewrite (bind_Raise _ _ _ _ _ Hl) in Hrun. injection Hrun as <- <-.
    split; [apply requested_more_refl|].
    destruct (decide ("title" ∈ columns (movies_df w))) as [Hc|Hc].
    + revert Hl. unfold lookup_index, df_column, df_index_0, bind, ret, raise.
      rewrite decide_True by done. simpl.
      repeat (case_match; simplify_eq/=); try done. by intros [= <-].
    + rewrite lookup_index_no_column in Hl by done. by simplify_eq.
Qed.

(** [recommend] returns the pair of its body, or the empty pair when the
    body raises; then it has shown the error. *)
Lemma recommend_cases movie w :
  ∃ ns ps w', recommend movie w = (Ret (ns, ps), w') ∧
    (recommend_body movie w = (Ret (ns, ps), w')
     ∨ ∃ e w1, recommend_body movie w = (Raise e, w1) ∧
               w' = log_message (ErrorGeneratingRecommendations e) w1 ∧
               ns = [] ∧ ps = []).
Proof.
  unfold recommend, try_except.
  destruct (recommend_body movie w) as [[[ns ps]|e] w1] eqn:Hb.
  - exists ns, ps, w1. split; [done|by left].
  - apply recommend_body_cases in Hb as Hc. destruct Hc as [_ He].
    simpl. rewrite He. simpl.
    exists [], [], (log_message (ErrorGeneratingRecommendations e) w1).
    split; [done|]. right. by exists e, w1.
Qed.

Lemma recommend_handles movie w e :
  value (recommend_body movie) w = Raise e →
  value (recommend movie) w = Ret ([], []) ∧
  shown (after (recommend movie) w) = shown w ++ [ErrorGeneratingRecommendations e].
Proof.
  intros He. unfold value, after in *.
  destruct (recommend_cases movie w)
    as (ns & ps & w' & Hrun & [Hb|(e' & w1 & Hb & -> & -> & ->)]);
    rewrite Hrun; rewrite Hb in He; simplify_eq/=.
  split; [done|]. by apply recommend_body_cases in Hb as [[urls ->] _].
Qed.

Lemma recommend_body_unfold movie w :
  recommend_body movie w
  = match lookup_index (movies_df w) movie w with
    | (Ret (Some index), w') => top_five (movies_df w) (similarity_matrix w) index w'
    | (Ret None, w') => (Ret ([], []), w')
    | (Raise e, w') => (Raise e, w')
    end.
Proof.
  unfold recommend_body, gets.
  rewrite (bind_Ret _ _ w (movies_df w) w) by done.
  rewrite (bind_Ret _ _ w (similarity_matrix w) w) by done.
  unfold bind. by destruct (lookup_index (movies_df w) movie w) as [[[index|]|e] w'].
Qed.

(** A title that no row has: the empty pair, and nothing shown or changed
    where the table has a title column. *)
Lemma recommend_absent movie w :
  (∀ r, r ∈ rows (movies_df w) → title r ≠ Some movie) →
  value (recommend movie) w = Ret ([], []) ∧
  ("title" ∈ columns (movies_df w) → after (recommend movie) w = w).
Proof.
  intros Habs.
  destruct (decide ("title" ∈ columns (movies_df w))) as [Hc|Hc].
  - pose proof (lookup_index_absent _ movie w Hc Habs) as Hl.
    assert (recommend movie w = (Ret ([], []), w)) as Hrun.
    { unfold recommend, try_except. by rewrite recommend_body_unfold, Hl. }
    unfold value, after. by rewrite Hrun.
  - split; [|done].
    apply (recommend_handles movie w (KeyError "title")).
    unfold value. by rewrite recommend_body_unfold, lookup_index_no_column.
Qed.
End Recommend.

(* ================================================================= *)
(** ** Runs on data that fit *)

Section Fitting.
Implicit Types (df : DataFrame) (w : world) (movie : string).
Implicit Types (ns : list (option string)) (ps : list string).

Lemma for_each_run df picks ms ns ps w :
  "title" ∈ columns df → "id" ∈ columns df →
  Forall2 (λ i m, rows df !! i.1 = Some m) picks ms →
  ∃ w', requested_more w w' ∧
        for_each picks (loop_body df) (ns, ps) w
        = (Ret (ns ++ (title <$> ms), ps ++ ((λ m, poster w (movie_id m)) <$> ms)), w').
Proof.
  intros Ht Hi HF.
  destruct (for_each picks (loop_body df) (ns, ps) w) as [r w'] eqn:Hrun.
  apply for_each_cases in Hrun as [Hmore Hr]. exists w'. split; [done|].
  destruct r as [[ns' ps']|e].
  - destruct Hr as (ms' & HF' & -> & ->).
    by rewrite (Forall2_unique _ _ _ _ HF HF') by congruence.
  - destruct Hr as [_ [Hex|[?|?]]]; try done. exfalso.
    clear -Hex HF. induction HF as [|i m picks ms Hm HF IH]; [by apply Exists_nil in Hex|].
    apply Exists_cons in Hex as [Hex|Hex]; [congruence|auto].
Qed.

(** The run of [recommend] when the title is found, its row is in the
    matrix and every ranked index is a row of the table. *)
Lemma recommend_run movie w index row ms :
  "title" ∈ columns (movies_df w) → "id" ∈ columns (movies_df w) →
  lookup_index (movies_df w) movie w = (Ret (Some index), w) →
  value (ndarray_getitem (similarity_matrix w) index) w = Ret row →
  Forall2 (λ i m, rows (movies_df w) !! i.1 = Some m) (slice (distances_of row) 1 6) ms →
  value (recommend movie) w
  = Ret (title <$> ms, (λ m, poster w (movie_id m)) <$> ms).
Proof.
  intros Ht Hi Hl Hrow HF.
  destruct (for_each_run _ _ _ [] [] w Ht Hi HF) as (w' & _ & Hloop).
  pose proof (ndarray_getitem_state (similarity_matrix w) index w) as Hst.
  unfold value, after in *.
  destruct (ndarray_getitem (similarity_matrix w) index w) as [r w1] eqn:Hget.
  simplify_eq/=.
  unfold recommend, try_except, recommend_body, gets.
  rewrite (bind_Ret _ _ w (movies_df w) w) by done.
  rewrite (bind_Ret _ _ w (similarity_matrix w) w) by done.
  rewrite (bind_Ret _ _ _ _ _ Hl). unfold top_five.
  rewrite (bind_Ret _ _ _ _ _ Hget). by rewrite Hloop.
Qed.

Lemma enumerate_index_lt {X} (l : list X) (i : nat * X) :
  i ∈ enumerate l → i.1 < length l.
Proof.
  intros (k & x & -> & Hk)%elem_of_lookup_imap. simpl. by eapply lookup_lt_Some.
Qed.

Lemma elem_of_slice {X} (l : list X) lo hi x : x ∈ slice l lo hi → x ∈ l.
Proof.
  unfold slice. intros H.
  eapply elem_of_sublist; [|apply sublist_drop].
  eapply elem_of_sublist; [done|apply sublist_take].
Qed.

Lemma rows_of_picks df (picks : list (nat * float)) :
  (∀ i, i ∈ picks → i.1 < length (rows df)) →
  ∃ ms, Forall2 (λ i m, rows df !! i.1 = Some m) picks ms.
Proof.
  induction picks as [|i picks IH]; intros H; [by exists []|].
  destruct IH as [ms HF]; [intros j Hj; apply H; by right|].
  destruct (lookup_lt_is_Some_2 (rows df) i.1) as [m Hm]; [apply H; by left|].
  exists (m :: ms). by constructor.
Qed.
End Fitting.

(* ================================================================= *)
(** ** Rank 0 and the queried movie *)

Section SelfExclusion.
Implicit Types (row : list float) (w : world) (movie : string).

Lemma fst_enumerate {X} (l : list X) : (enumerate l).*1 = seq 0 (length l).
Proof.
  unfold enumerate. rewrite fmap_imap.
  rewrite <- (list_fmap_id (seq 0 (length l))). apply (imap_seq_0 l (λ j, j)).
Qed.

Lemma elem_of_enumerate {X} (l : list X) (i : nat * X) :
  i ∈ enumerate l ↔ l !! i.1 = Some i.2.
Proof.
  unfold enumerate. rewrite elem_of_lookup_imap. split.
  - by intros (k & x & -> & Hk).
  - intros H. exists i.1, i.2. by destruct i.
Qed.

(** Where one entry of the row is greater than all others, it is the one
    at rank 0, and no later rank has its index. *)
Lemma distances_head row k :
  Forall number row → strictly_maximal k row →
  ∃ s t, distances_of row = (k, s) :: t ∧ ∀ i, i ∈ t → i.1 ≠ k.
Proof.
  intros Hnum (s & Hs & Hmax).
  pose proof (distances_Permutation row) as Hperm.
  pose proof (distances_ranked row Hnum) as Hsort.
  assert (NoDup (distances_of row).*1) as Hnodup.
  { rewrite Hperm, fst_enumerate. apply NoDup_seq. }
  assert ((k, s) ∈ distances_of row) as Hin.
  { rewrite Hperm. by apply elem_of_enumerate. }
  assert (∀ i, i ∈ distances_of row → row !! i.1 = Some i.2) as Hrow.
  { intros i Hi. rewrite Hperm in Hi. by apply elem_of_enumerate. }
  destruct (distances_of row) as [|[j x] t]; [by apply elem_of_nil in Hin|].
  simpl in Hnodup. apply NoDup_cons in Hnodup as [Hj _].
  apply StronglySorted_inv in Hsort as [_ Hall]. rewrite Forall_forall in Hall.
  assert (row !! j = Some x) as Hx by (apply (Hrow (j, x)); by left).
  destruct (decide (j = k)) as [->|Hjk].
  - exists x, t. replace s with x by congruence. split; [done|].
    intros i Hi Heq. apply Hj. rewrite <- Heq. by apply (list_elem_of_fmap_2 fst).
  - exfalso. apply elem_of_cons in Hin as [[= ? ?]|Hin]; [done|].
    pose proof (Hmax j x Hjk Hx) as Hlt.
    rewrite Forall_lookup in Hnum.
    destruct (Hall _ Hin) as [Hgt|[Heq _]]; simpl in *.
    + apply ltb_asym in Hgt. congruence.
    + apply eqb_ltb in Heq as [? _]; [congruence|by eapply Hnum..].
Qed.

(** X2: what the self-exclusion of line 69 achieves.  On data that fit and
    with unique titles, if the self-similarity of the queried movie is
    greater than every other score of its row, the queried movie is not
    among the recommendations. *)
Lemma recommend_excludes_query movie w k r row :
  well_formed w → unique_titles (movies_df w) →
  rows (movies_df w) !! k = Some r → title r = Some movie →
  similarity_matrix w !! k = Some row →
  Forall number row → strictly_maximal k row →
  ∃ ns ps, value (recommend movie) w = Ret (ns, ps) ∧ Some movie ∉ ns.
Proof.
  intros (Ht & Hi & Hidx & Hlen & Hrows) Huniq Hk Hr Hrow Hnum Hmax.
  assert (∀ j m, rows (movies_df w) !! j = Some m → title m = Some movie → j = k) as Honly.
  { intros j m Hj Hm. eapply (NoDup_lookup _ _ _ _ Huniq); rewrite list_lookup_fmap.
    - by rewrite Hj; simpl; rewrite Hm.
    - by rewrite Hk; simpl; rewrite Hr. }
  assert (length row = length (rows (movies_df w))) as Hrowlen.
  { rewrite Forall_lookup in Hrows. by eapply Hrows. }
  destruct (distances_head row k Hnum Hmax) as (s & t & Hd & Hother).
  destruct (rows_of_picks (movies_df w) (slice (distances_of row) 1 6)) as [ms HF].
  { intros i Hi'. apply elem_of_slice in Hi'. rewrite distances_Permutation in Hi'.
    rewrite <- Hrowlen. by apply enumerate_index_lt. }
  exists (title <$> ms), ((λ m, poster w (movie_id m)) <$> ms). split.
  - apply (recommend_run movie w (label r) row ms); try done.
    + apply (lookup_index_first _ _ _ (take k (rows (movies_df w))) r
               (drop (S k) (rows (movies_df w)))); try done.
      * by rewrite take_drop_middle.
      * intros x Hx Htitle. apply elem_of_take in Hx as (j & Hj & Hlt).
        pose proof (Honly j x Hj Htitle). lia.
    + unfold value. by rewrite (Hidx _ _ Hk), (ndarray_getitem_in_range _ _ row).
  - intros (m & Hm & Hin)%list_elem_of_fmap.
    apply list_elem_of_lookup_1 in Hin as [p Hp].
    destruct (Forall2_lookup_r _ _ _ _ _ HF Hp) as (i & Hip & Him).
    apply list_elem_of_lookup_2 in Hip.
    rewrite Hd in Hip. unfold slice in Hip. simpl in Hip. rewrite drop_0 in Hip.
    apply (Hother i).
    + eapply elem_of_sublist; [done|apply sublist_take].
    + by apply (Honly i.1 m).
Qed.
End SelfExclusion.

Lemma scenario_well_formed : well_formed scenario.
Proof.
  split; [vm_compute; set_solver|]. split; [vm_compute; set_solver|]. split.
  - intros k r Hk. destruct k as [|[|[|k]]]; simpl in Hk; [| | |done];
      by injection Hk as <-.
  - split; [reflexivity|]. by repeat constructor.
Qed.


Lemma recommend_excludes_query_witness :
  well_formed scenario ∧ unique_titles (movies_df scenario) ∧
  strictly_maximal 0 scenario_row ∧
  ∃ ns ps, value (recommend "A") scenario = Ret (ns, ps) ∧ Some "A" ∉ ns.
Proof.
  assert (unique_titles (movies_df scenario)) as Huniq.
  { unfold unique_titles. simpl. repeat (apply NoDup_cons; split); try apply NoDup_nil_2.
    - intros H. repeat (apply elem_of_cons in H as [[=]|H]). by apply elem_of_nil in H.
    - intros H. repeat (apply elem_of_cons in H as [[=]|H]). by apply elem_of_nil in H.
    - intros H. by apply elem_of_nil in H. }
  assert (strictly_maximal 0 scenario_row) as Hmax.
  { exists 1.0%float. split; [reflexivity|]. intros j x Hj Hx.
    destruct j as [|[|[|j]]]; simpl in Hx; [done| | |done]; by injection Hx as <-. }
  split; [exact scenario_well_formed|]. split; [exact Huniq|]. split; [exact Hmax|].
  apply (recommend_excludes_query "A" scenario 0
           {| label := 0; title := Some "A"; movie_id := IdInt 1 |} scenario_row
           scenario_well_formed Huniq eq_refl eq_refl eq_refl); [|exact Hmax].
  by repeat constructor.
Defined.

(* ================================================================= *)
(** ** The recommendations *)

(** C1: on the table A (id 1), B (id 2), C (id 3), with the similarity row
    1.0, 0.9, 0.1 for A, [recommend("A")] returns B and C in this order,
    each with the poster of its identifier. *)
Theorem recommend_scenario (rest : list (list float)) (w0 : world) :
  let w := with_data scenario_table (scenario_row :: rest) w0 in
  value (recommend "A") w
  = Ret ([Some "B"; Some "C"], [poster w (IdInt 2); poster w (IdInt 3)]).
Proof.
  intros w.
  apply (recommend_run "A" w 0%Z scenario_row
           [ {| label := 1; title := Some "B"; movie_id := IdInt 2 |};
             {| label := 2; title := Some "C"; movie_id := IdInt 3 |} ]).
  - vm_compute. set_solver.
  - vm_compute. set_solver.
  - by apply (lookup_index_first _ _ _ [] {| label := 0; title := Some "A"; movie_id := IdInt 1 |}
                [ {| label := 1; title := Some "B"; movie_id := IdInt 2 |};
                  {| label := 2; title := Some "C"; movie_id := IdInt 3 |} ]);
      [vm_compute; set_solver|done|intros x Hx; by apply elem_of_nil in Hx|done].
  - unfold value. by rewrite (ndarray_getitem_in_range _ 0 scenario_row).
  - replace (slice (distances_of scenario_row) 1 6) with [(1, 0.9%float); (2, 0.1%float)]
      by (vm_compute; reflexivity).
    by repeat constructor.
Qed.

Example recommend_last_rows :
  value (recommend "C") scenario = Ret ([Some "B"; Some "A"], [timeout_poster; timeout_poster]).
Proof. vm_compute. reflexivity. Qed.

(** With two rows of the same title the first is looked up, and the other
    can be among its recommendations. *)
Example recommend_duplicates :
  value (recommend "A") duplicates = Ret ([Some "B"; Some "A"], [timeout_poster; timeout_poster]).
Proof. vm_compute. reflexivity. Qed.

(** X1: for every title and every world, [recommend] returns at most five
    names and at most five posters. *)
Lemma recommend_at_most_five (movie : string) (w : world) ns ps :
  value (recommend movie) w = Ret (ns, ps) → length ns ≤ 5 ∧ length ps ≤ 5.
Proof.
  unfold value.
  destruct (recommend_cases movie w) as (ns' & ps' & w' & Hrun & [Hb|(e & w1 & Hb & -> & -> & ->)]);
    rewrite Hrun; intros [= <- <-]; [|simpl; lia].
  apply recommend_body_cases in Hb as [_ [(_ & -> & ->)|(index & row & ms & _ & _ & HF & -> & ->)]];
    [simpl; lia|].
  apply Forall2_length in HF. rewrite length_slice in HF.
  rewrite !length_fmap. lia.
Qed.

Lemma recommend_at_most_five_witness :
  value (recommend "C") scenario
  = Ret ([Some "B"; Some "A"], [timeout_poster; timeout_poster]) ∧
  length [Some "B"; Some "A"] ≤ 5 ∧ length [timeout_poster; timeout_poster] ≤ 5.
Proof.
  split; [vm_compute; reflexivity|].
  apply (recommend_at_most_five "C" scenario). vm_compute. reflexivity.
Defined.

(** X3: the two lists that [recommend] returns have the same length: one
    poster per name. *)
Lemma recommend_one_poster_per_name (movie : string) (w : world) ns ps :
  value (recommend movie) w = Ret (ns, ps) → length ns = length ps.
Proof.
  unfold value.
  destruct (recommend_cases movie w)
    as (ns' & ps' & w' & Hrun & [Hb|(e & w1 & Hb & -> & -> & ->)]);
    rewrite Hrun; intros [= <- <-]; [|done].
  apply recommend_body_cases in Hb
    as [_ [(_ & -> & ->)|(index & row & ms & _ & _ & _ & -> & ->)]]; [done|].
  by rewrite !length_fmap.
Qed.

Lemma recommend_one_poster_per_name_witness :
  value (recommend "A") scenario
  = Ret ([Some "B"; Some "C"], [timeout_poster; timeout_poster]) ∧
  length [Some "B"; Some "C"] = length [timeout_poster; timeout_poster].
Proof.
  split; [vm_compute; reflexivity|].
  apply (recommend_one_poster_per_name "A" scenario). vm_compute. reflexivity.
Defined.

(** C2, on the code: with unique titles and every self-similarity entry the
    maximum of its row, [recommend] can still return the queried movie.  On
    two movies whose four similarity scores are all 1.0, the ranking of the
    row of B puts A first, so that the entry dropped at rank 0 is A and B is
    returned for B. *)
Theorem recommend_tie_returns_query (w0 : world) :
  let w := with_data tie_table tie_matrix w0 in
  unique_titles tie_table ∧ self_similarity_maximal tie_matrix ∧ well_formed w ∧
  value (recommend "B") w = Ret ([Some "B"], [poster w (IdInt 2)]).
Proof.
  intros w.
  assert ("title" ∈ columns (movies_df w)) as Ht by (vm_compute; set_solver).
  assert ("id" ∈ columns (movies_df w)) as Hi by (vm_compute; set_solver).
  split; [|split; [|split]].
  - unfold unique_titles. simpl. apply NoDup_cons.
    split; [by intros [=]%list_elem_of_singleton|apply NoDup_singleton].
  - intros i j row s x Hrow Hs Hx.
    destruct i as [|[|i]]; simpl in Hrow; [| |done];
      injection Hrow as <-; injection Hs as <-;
      (destruct j as [|[|j]]; simpl in Hx; [| |done]); by injection Hx as <-.
  - split; [done|]. split; [done|]. split.
    + intros k r Hk. destruct k as [|[|k]]; simpl in Hk; by simplify_eq/=.
    + split; [done|]. by repeat constructor.
  - apply (recommend_run "B" w 1%Z [1.0; 1.0]%float
             [ {| label := 1; title := Some "B"; movie_id := IdInt 2 |} ]).
    + done.
    + done.
    + by apply (lookup_index_first _ _ _
                  [ {| label := 0; title := Some "A"; movie_id := IdInt 1 |} ]
                  {| label := 1; title := Some "B"; movie_id := IdInt 2 |} []);
        [done|done|intros x ->%list_elem_of_singleton|done].
    + unfold value. by rewrite (ndarray_getitem_in_range _ 1 [1.0; 1.0]%float).
    + replace (slice (distances_of [1.0; 1.0]%float) 1 6) with [(1, 1.0%float)]
        by (vm_compute; reflexivity).
      by repeat constructor.
Qed.






(* ================================================================= *)
(** ** Effects and failures of [recommend] *)

(** C9: whatever the title and the world, a call of [recommend] leaves the
    movie table and the similarity matrix as they were. *)
Theorem recommend_frame (movie : string) (w : world) :
  data_unchanged w (after (recommend movie) w).
Proof.
  destruct (recommend_cases movie w) as (ns & ps & w' & Hrun & [Hb|(e & w1 & Hb & -> & _)]);
    unfold after; rewrite Hrun; simpl.
  - apply recommend_body_cases in Hb as [Hmore _]. by apply requested_more_data.
  - apply recommend_body_cases in Hb as [Hmore _].
    apply requested_more_data in Hmore as [? ?]. by split.
Qed.

(** C10: [recommend] never raises.  It returns a pair for every title and
    every world, also when the table and the matrix do not fit; whenever
    its body raises it returns the empty pair, after showing the error; in
    particular when the label of the queried row is no index of the
    matrix. *)
Theorem recommend_never_raises (movie : string) (w : world) :
  (∃ ns ps, value (recommend movie) w = Ret (ns, ps)) ∧
  (∀ e, value (recommend_body movie) w = Raise e →
        value (recommend movie) w = Ret ([], []) ∧
        shown (after (recommend movie) w)
        = shown w ++ [ErrorGeneratingRecommendations e]) ∧
  (∀ index, value (lookup_index (movies_df w) movie) w = Ret (Some index) →
            ¬ (- Z.of_nat (length (similarity_matrix w)) ≤ index
               < Z.of_nat (length (similarity_matrix w)))%Z →
            value (recommend movie) w = Ret ([], [])).
Proof.
  split; [|split; [apply recommend_handles|]].
  - destruct (recommend_cases movie w) as (ns & ps & w' & Hrun & _).
    exists ns, ps. unfold value. by rewrite Hrun.
  - intros index Hl Hout.
    apply (recommend_handles movie w IndexError).
    pose proof (lookup_index_state (movies_df w) movie w) as Hst.
    unfold value, after in *. rewrite recommend_body_unfold.
    destruct (lookup_index (movies_df w) movie w) as [r w1] eqn:Hlook. simplify_eq/=.
    unfold top_five, ndarray_getitem, bind, raise.
    destruct (index <? 0)%Z eqn:E; case_decide; try done; lia.
Qed.

(** A matrix with fewer rows than the table: the row of B is missing. *)
Example recommend_short_matrix :
  recommend "B" (with_data scenario_table [scenario_row] fresh)
  = (Ret ([], []),
     log_message (ErrorGeneratingRecommendations IndexError)
       (with_data scenario_table [scenario_row] fresh)).
Proof. vm_compute. reflexivity. Qed.

(** A table without the id column. *)
Example recommend_no_id_column :
  value (recommend "A")
    (with_data {| columns := {["title"]}; rows := rows scenario_table |} scenario_matrix fresh)
  = Ret ([], []).
Proof. vm_compute. reflexivity. Qed.

(* ================================================================= *)
(** ** Loading *)

Section Loading.
Implicit Types (w : world) (m s : pyobj).

(** A call that finds the cache filled returns its entry and does nothing
    else. *)
Lemma load_data_hit w v : cache w = Some v → load_data w = (Ret v, w).
Proof. intros H. unfold load_data, st_cache_data, bind, gets, ret. by rewrite H. Qed.

(** A call that finds the cache empty opens the files. *)
Lemma load_data_miss w :
  cache w = None →
  load_data w
  = let w1 := log_open "movie_list.pkl" w in
    let w2 := log_open "similarity.pkl" w1 in
    match storage w "movie_list.pkl" with
    | Missing => (Raise StopException, log_message FilesNotFound w1)
    | Corrupt => (Raise StopException, log_message (ErrorLoadingData UnpicklingError) w1)
    | Pickle m =>
        match storage w "similarity.pkl" with
        | Missing => (Raise StopException, log_message FilesNotFound w2)
        | Corrupt =>
            (Raise StopException, log_message (ErrorLoadingData UnpicklingError) w2)
        | Pickle s => (Ret (m, s), set_cache (m, s) w2)
        end
    end.
Proof.
  intros H. unfold load_data, st_cache_data.
  cbv beta iota delta [load_data_body try_except pickle_load st_error st_stop bind
    gets modify ret raise]. rewrite H. simpl.
  destruct (storage w "movie_list.pkl"); simpl; try done.
  by destruct (storage w "similarity.pkl").
Qed.

(** What [main] makes of a loaded pair, lines 92-103. *)
Lemma main_load_unfold w :
  main_load w
  = match load_data w with
    | (Ret (m, s), w') =>
        if is_PyNone m || is_PyNone s then (Ret None, log_message FailedToLoad w')
        else match m with
             | PyDataFrame df =>
                 if bool_decide ("title" ∉ columns df)
                 then (Ret None, log_message TitleColumnNotFound w')
                 else if bool_decide ("id" ∉ columns df)
                      then (Ret None, log_message IdColumnNotFound w')
                      else (Ret (Some (m, s)), w')
             | _ => (Raise AttributeError, w')
             end
    | (Raise e, w') => (Raise e, w')
    end.
Proof.
  unfold main_load, bind. destruct (load_data w) as [[[m s]|e] w']; [|done].
  destruct (is_PyNone m || is_PyNone s); [done|].
  unfold py_columns, st_error, modify, ret, raise.
  destruct m; try done. by repeat case_bool_decide.
Qed.
End Loading.

Example load_data_missing_file :
  load_data fresh
  = (Raise StopException, log_message FilesNotFound (log_open "movie_list.pkl" fresh)).
Proof. reflexivity. Qed.

Example main_load_no_title :
  value main_load
    (with_storage
       (pickled (PyDataFrame {| columns := {["id"]}; rows := [] |}) (PyArray [])) fresh)
  = Ret None.
Proof. vm_compute. reflexivity. Qed.

(** C3, on the code: a movie table of three rows and a matrix of one row
    and one column are no well-formed pair of artifacts, and loading them
    does not fail: [main] goes on with the pair. *)
Lemma load_accepts_dimension_mismatch :
  ¬ artifacts_well_formed (PyDataFrame scenario_table) (PyArray [[1.0%float]]) ∧
  value main_load mismatch
  = Ret (Some (PyDataFrame scenario_table, PyArray [[1.0%float]])).
Proof.
  split.
  - intros (df & a & [= <-] & [= <-] & _ & _ & Hlen & _). simpl in Hlen. lia.
  - vm_compute. reflexivity.
Qed.

(** C3, amended: when nothing is cached yet, the load stops the script with
    an error message if a file is missing or cannot be unpickled; [main]
    ends with an error message if a loaded object is [None] or the movie
    table lacks the title or the id column; and [main] goes on with the
    loaded pair exactly when both files unpickle, the first to a table with
    both columns and the second to anything but [None].  The shape of the
    matrix is not looked at. *)
Theorem main_load_accepts (w : world) :
  cache w = None →
  (∀ p, value main_load w = Ret (Some p) ↔
        ∃ df s, storage w "movie_list.pkl" = Pickle (PyDataFrame df) ∧
                storage w "similarity.pkl" = Pickle s ∧ s ≠ PyNone ∧
                "title" ∈ columns df ∧ "id" ∈ columns df ∧ p = (PyDataFrame df, s)) ∧
  ((∀ m, storage w "movie_list.pkl" ≠ Pickle m) ∨
   (∀ s, storage w "similarity.pkl" ≠ Pickle s) →
   value main_load w = Raise StopException ∧
   ∃ msg, shown (after main_load w) = shown w ++ [msg]) ∧
  (∀ m s, storage w "movie_list.pkl" = Pickle m →
          storage w "similarity.pkl" = Pickle s →
          m = PyNone ∨ s = PyNone ∨
          (∃ df, m = PyDataFrame df ∧ ("title" ∉ columns df ∨ "id" ∉ columns df)) →
          value main_load w = Ret None ∧
          ∃ msg, shown (after main_load w) = shown w ++ [msg]).
Proof.
  intros Hcache. unfold value, after. rewrite main_load_unfold, load_data_miss by done.
  split; [|split].
  - intros p. split.
    + destruct (storage w "movie_list.pkl") as [| |m]; simpl; try done.
      destruct (storage w "similarity.pkl") as [| |s]; simpl; try done.
      destruct (is_PyNone m || is_PyNone s) eqn:Hnone; simpl; [done|].
      destruct m as [|df| |]; simpl; try done.
      repeat case_bool_decide; simpl; try done. intros [= <-].
      exists df, s. repeat split; try done. by intros ->.
    + intros (df & s & -> & -> & Hs & Ht & Hi & ->). simpl.
      destruct s; try done; simpl;
        rewrite !bool_decide_eq_false_2 by (intros Hn; by apply Hn); done.
  - intros [Hm|Hs].
    + destruct (storage w "movie_list.pkl") as [| |m]; simpl; eauto. by destruct (Hm m).
    + destruct (storage w "movie_list.pkl") as [| |m]; simpl; eauto.
      destruct (storage w "similarity.pkl") as [| |s]; simpl; eauto. by destruct (Hs s).
  - intros m s -> -> Hbad. simpl.
    destruct Hbad as [->|[->|(df & -> & Hcol)]]; simpl; eauto.
    + destruct m; simpl; eauto.
    + destruct (is_PyNone s); simpl; eauto.
      destruct Hcol as [Hcol|Hcol].
      * rewrite bool_decide_eq_true_2 by done. simpl. eauto.
      * case_bool_decide; simpl; eauto. rewrite bool_decide_eq_true_2 by done. simpl. eauto.
Qed.

Lemma main_load_accepts_witness :
  cache stored = None ∧
  value main_load stored
  = Ret (Some (PyDataFrame scenario_table, PyArray scenario_matrix)).
Proof.
  split; [reflexivity|].
  apply (main_load_accepts stored eq_refl).
  exists scenario_table, (PyArray scenario_matrix).
  repeat split; [discriminate|vm_compute; set_solver..].
Defined.

(** C8: the artifacts are read once.  With both files in place and nothing
    cached, the first call of [load_data] opens the two files and returns
    the pair they hold; the second call returns the same pair and changes
    nothing: it opens no file. *)
Theorem load_data_once (w : world) (m s : pyobj) :
  cache w = None →
  storage w "movie_list.pkl" = Pickle m →
  storage w "similarity.pkl" = Pickle s →
  let w1 := after load_data w in
  value load_data w = Ret (m, s) ∧
  opened w1 = opened w ++ ["movie_list.pkl"; "similarity.pkl"] ∧
  load_data w1 = (Ret (m, s), w1).
Proof.
  intros Hcache Hm Hs. unfold value, after. rewrite load_data_miss by done.
  rewrite Hm, Hs. simpl. split; [done|]. split; [by rewrite <- app_assoc|].
  by apply load_data_hit.
Qed.

Lemma load_data_once_witness :
  cache stored = None ∧
  value load_data stored = Ret (PyDataFrame scenario_table, PyArray scenario_matrix) ∧
  opened (after load_data stored) = ["movie_list.pkl"; "similarity.pkl"] ∧
  load_data (after load_data stored)
  = (Ret (PyDataFrame scenario_table, PyArray scenario_matrix), after load_data stored).
Proof.
  split; [reflexivity|].
  exact (load_data_once stored (PyDataFrame scenario_table) (PyArray scenario_matrix)
           eq_refl eq_refl eq_refl).
Defined.

(* ================================================================= *)
(** ** The requests of the poster lookup *)

Section Requests.
Implicit Types (w : world) (id : id_cell).

Lemma fetch_poster_after id w :
  after (fetch_poster id) w = with_requested (requested w ++ request_of id) w.
Proof.
  assert (w = with_requested (requested w ++ []) w) as Hsame
    by by rewrite with_requested_id.
  unfold after, request_of.
  cbv beta iota delta [fetch_poster try_except bind ret raise py_int requests_get
    response_json py_contains py_getitem modify gets]; simpl.
  destruct id as [z| |]; simpl; try done.
  destruct (z =? 0)%Z; simpl; [done|].
  destruct (network w (api_url z)) as [| |[st c]]; simpl; try done.
  destruct (st =? 200)%Z; simpl; [|done].
  destruct c as [[]|[items|items|v]]; simpl; try done.
  - destruct (dict_get "poster_path" items) as [v|]; case_bool_decide; simpl;
      try done.
    by destruct (py_bool v).
  - by case_bool_decide.
  - destruct v; simpl; try done. by case_bool_decide.
Qed.

Lemma fetch_poster_exact id w :
  fetch_poster id w
  = (Ret (poster w id), with_requested (requested w ++ request_of id) w).
Proof.
  destruct (fetch_poster_run id w) as [urls Hrun].
  pose proof (fetch_poster_after id w) as Hafter. unfold after in Hafter.
  rewrite Hrun in Hafter |- *. simpl in Hafter. by rewrite Hafter.
Qed.

Lemma length_request_of id : length (request_of id) ≤ 1.
Proof. destruct id as [z| |]; simpl; try lia. destruct (z =? 0)%Z; simpl; lia. Qed.
End Requests.

(** X4: [fetch_poster] sends at most one request: none for a missing, zero
    or infinite identifier, and otherwise one GET to the API address of the
    identifier, whatever comes back.  It changes nothing else: it shows no
    message, opens no file and leaves the data and the cache alone. *)
Theorem fetch_poster_one_request (movie_id : id_cell) (w : world) :
  after (fetch_poster movie_id) w
  = with_requested (requested w ++ request_of movie_id) w ∧
  length (request_of movie_id) ≤ 1 ∧
  (∀ n, movie_id = IdInt n → n ≠ 0%Z → request_of movie_id = [api_url n]) ∧
  (pd_isna movie_id = true ∨ eq_zero movie_id = true ∨ movie_id = IdInf →
   after (fetch_poster movie_id) w = w).
Proof.
  split; [apply fetch_poster_after|]. split; [apply length_request_of|]. split.
  - intros n -> Hn. simpl. by destruct (Z.eqb_spec n 0).
  - intros Hno. rewrite fetch_poster_after.
    replace (request_of movie_id) with (@nil string); [apply with_requested_id|].
    destruct movie_id as [z| |]; simpl in *; try done.
    destruct Hno as [?|[->|?]]; done.
Qed.

(** X5: which image stands for which failure.  A timeout gives the Timeout
    image, though a timeout is a request failure too; any other failure of
    the request gives the Error image; an answer with another status than
    200 gives the No+Poster image without its body being read; a body that is
    not JSON gives the Error image (the No+Image one with an old version of
    requests); and JSON that is no object gives the No+Image image when it
    contains the text [poster_path], because the subscript then raises. *)
Theorem fetch_poster_failure_images (n : Z) (w : world) :
  n ≠ 0%Z →
  match network w (api_url n) with
  | TimedOut => value (fetch_poster (IdInt n)) w = Ret timeout_poster
  | Failed => value (fetch_poster (IdInt n)) w = Ret error_poster
  | Responded r =>
      if (status_code r =? 200)%Z then
        match content r with
        | NotJson legacy =>
            value (fetch_poster (IdInt n)) w
            = Ret (if legacy then no_image else error_poster)
        | Json (JDict items) =>
            (dict_get "poster_path" items = None →
             value (fetch_poster (IdInt n)) w = Ret no_poster) ∧
            (∀ v, dict_get "poster_path" items = Some v → py_bool v = false →
                  value (fetch_poster (IdInt n)) w = Ret no_poster)
        | Json (JList items) =>
            value (fetch_poster (IdInt n)) w
            = Ret (if bool_decide (PStr "poster_path" ∈ items) then no_image else no_poster)
        | Json (JScalar (PStr s)) =>
            value (fetch_poster (IdInt n)) w
            = Ret (if bool_decide (is_Some (String.index 0 "poster_path" s))
                   then no_image else no_poster)
        | Json (JScalar _) => value (fetch_poster (IdInt n)) w = Ret no_image
        end
      else value (fetch_poster (IdInt n)) w = Ret no_poster
  end.
Proof.
  intros Hn. apply Z.eqb_neq in Hn. unfold value.
  cbv beta iota delta [fetch_poster try_except bind ret raise py_int requests_get
    response_json py_contains py_getitem modify gets]; simpl. rewrite Hn. simpl.
  destruct (network w (api_url n)) as [| |[st c]]; simpl; try done.
  destruct (st =? 200)%Z; simpl; [|done].
  destruct c as [[]|[items|items|v]]; simpl; try done.
  - split.
    + intros ->. by case_bool_decide.
    + intros v -> Hv. case_bool_decide; simpl; [by rewrite Hv|done].
  - by case_bool_decide.
  - destruct v; simpl; try done. by case_bool_decide.
Qed.

Lemma fetch_poster_failure_images_witness :
  value (fetch_poster (IdInt 19995)) (always TimedOut) = Ret timeout_poster.
Proof. apply (fetch_poster_failure_images 19995 (always TimedOut)). discriminate. Defined.

(* ================================================================= *)
(** ** What [recommend] returns and what it sends *)

Section Exact.
Implicit Types (df : DataFrame) (w : world) (movie : string).
Implicit Types (ns : list (option string)) (ps : list string) (ms : list Movie).

Lemma with_requested_more w urls urls' :
  with_requested
    (requested (with_requested (requested w ++ urls) w) ++ urls')
    (with_requested (requested w ++ urls) w)
  = with_requested (requested w ++ urls ++ urls') w.
Proof. apply with_requested_app. Qed.

Lemma loop_body_exact df i ns ps m w :
  rows df !! i.1 = Some m → "title" ∈ columns df → "id" ∈ columns df →
  loop_body df i (ns, ps) w
  = (Ret (ns ++ [title m], ps ++ [poster w (movie_id m)]),
     with_requested (requested w ++ request_of (movie_id m)) w).
Proof.
  intros Hm Ht Hi. unfold loop_body, df_iloc, row_get, bind, ret. rewrite Hm.
  rewrite !decide_True by done. by rewrite fetch_poster_exact.
Qed.

Lemma for_each_exact df picks : ∀ ns ps w r w',
  for_each picks (loop_body df) (ns, ps) w = (r, w') →
  ∃ ms, Forall (λ m, m ∈ rows df) ms ∧ length ms ≤ length picks ∧
        w' = with_requested
               (requested w ++ concat ((λ m, request_of (movie_id m)) <$> ms)) w ∧
        match r with
        | Ret (ns', ps') =>
            Forall2 (λ i m, rows df !! i.1 = Some m) picks ms ∧
            ns' = ns ++ (title <$> ms) ∧
            ps' = ps ++ ((λ m, poster w (movie_id m)) <$> ms)
        | Raise e => is_Exception e = true
        end.
Proof.
  induction picks as [|i picks IH]; intros ns ps w r w' Hrun; simpl in Hrun.
  - unfold ret in Hrun. injection Hrun as <- <-. exists []. simpl.
    rewrite with_requested_id, !app_nil_r. by repeat split.
  - destruct (loop_body_cases df i ns ps w)
      as [(m & urls & Hm & Ht & Hi & _)|(e & He & Hb & _)].
    + rewrite (bind_Ret _ _ _ _ _ (loop_body_exact df i ns ps m w Hm Ht Hi)) in Hrun.
      apply IH in Hrun as (ms & Hrows & Hlen & -> & Hr).
      exists (m :: ms). split; [constructor; [by eapply list_elem_of_lookup_2|done]|].
      split; [simpl; lia|]. split.
      { by rewrite with_requested_more. }
      destruct r as [[ns' ps']|e]; [|done].
      destruct Hr as (HF & -> & ->). split; [by constructor|].
      rewrite <- !app_assoc. simpl. split; [done|]. do 2 f_equal.
      apply list_fmap_ext. intros k x _. apply poster_with_requested.
    + rewrite (bind_Raise _ _ _ _ _ Hb) in Hrun. injection Hrun as <- <-.
      exists []. simpl. rewrite with_requested_id. repeat split; try done. lia.
Qed.

(** Every run of [recommend], by the rows whose posters it fetched. *)
Lemma recommend_exact movie w :
  ∃ ms, Forall (λ m, m ∈ rows (movies_df w)) ms ∧ length ms ≤ 5 ∧
        let w' := with_requested
                    (requested w ++ concat ((λ m, request_of (movie_id m)) <$> ms)) w in
        recommend movie w
        = (Ret (title <$> ms, (λ m, poster w (movie_id m)) <$> ms), w')
        ∨ ∃ e, recommend movie w
               = (Ret ([], []), log_message (ErrorGeneratingRecommendations e) w').
Proof.
  assert (∀ index run, top_five (movies_df w) (similarity_matrix w) index w = run →
    ∃ ms, Forall (λ m, m ∈ rows (movies_df w)) ms ∧ length ms ≤ 5 ∧
          run.2 = with_requested
                    (requested w ++ concat ((λ m, request_of (movie_id m)) <$> ms)) w ∧
          match run.1 with
          | Ret (ns, ps) => ns = title <$> ms ∧ ps = (λ m, poster w (movie_id m)) <$> ms
          | Raise e => is_Exception e = true
          end) as Htop.
  { intros index [r w'] Hrun. unfold top_five in Hrun.
    pose proof (ndarray_getitem_state (similarity_matrix w) index w) as Hst.
    unfold after in Hst.
    destruct (ndarray_getitem (similarity_matrix w) index w) as [[row|e] w1] eqn:Hget;
      simpl in Hst; subst w1.
    - rewrite (bind_Ret _ _ _ _ _ Hget) in Hrun.
      apply for_each_exact in Hrun as (ms & Hrows & Hlen & -> & Hr).
      exists ms. split; [done|]. split.
      { rewrite length_slice in Hlen. lia. }
      split; [done|]. simpl. destruct r as [[ns ps]|e]; [|done]. by destruct Hr as (_ & -> & ->).
    - rewrite (bind_Raise _ _ _ _ _ Hget) in Hrun. injection Hrun as <- <-.
      exists []. simpl. rewrite with_requested_id. repeat split; try lia; try done.
      destruct (ndarray_getitem_value (similarity_matrix w) index w) as [Hv|(row & _ & Hv)];
        unfold value in Hv; rewrite Hget in Hv; by simplify_eq/=. }
  assert (∃ ms, Forall (λ m, m ∈ rows (movies_df w)) ms ∧ length ms ≤ 5 ∧
          (recommend_body movie w).2
          = with_requested
              (requested w ++ concat ((λ m, request_of (movie_id m)) <$> ms)) w ∧
          match (recommend_body movie w).1 with
          | Ret (ns, ps) => ns = title <$> ms ∧ ps = (λ m, poster w (movie_id m)) <$> ms
          | Raise e => is_Exception e = true
          end) as (ms & Hrows & Hlen & Hst & Hres).
  { rewrite recommend_body_unfold.
    pose proof (lookup_index_state (movies_df w) movie w) as Hst. unfold after in Hst.
    destruct (lookup_index (movies_df w) movie w) as [[[index|]|e] w1] eqn:Hl;
      simpl in Hst; subst w1.
    - by apply (Htop index).
    - exists []. simpl. rewrite with_requested_id. repeat split; try lia; done.
    - exists []. simpl. rewrite with_requested_id. repeat split; try lia; try done.
      pose proof (recommend_body_cases movie w (Raise e) w) as Hc.
      rewrite recommend_body_unfold, Hl in Hc. by destruct Hc. }
  exists ms. split; [done|]. split; [done|]. simpl.
  unfold recommend, try_except.
  destruct (recommend_body movie w) as [[[ns ps]|e] w1]; simpl in *; subst w1.
  - left. by destruct Hres as [-> ->].
  - right. exists e. by rewrite Hres.
Qed.
End Exact.

Section Fitted.
Implicit Types (df : DataFrame) (w : world) (movie : string).
Implicit Types (ns : list (option string)) (ps : list string) (ms : list Movie).

Lemma length_requests ms :
  length (concat ((λ m, request_of (movie_id m)) <$> ms)) ≤ length ms.
Proof.
  induction ms as [|m ms IH]; [done|]. rewrite fmap_cons. cbn [concat length].
  rewrite length_app. pose proof (length_request_of (movie_id m)). lia.
Qed.

Lemma elem_of_requests ms u :
  u ∈ concat ((λ m, request_of (movie_id m)) <$> ms) →
  ∃ m n, m ∈ ms ∧ movie_id m = IdInt n ∧ n ≠ 0%Z ∧ u = api_url n.
Proof.
  induction ms as [|m ms IH]; [by intros ?%elem_of_nil|]. rewrite fmap_cons. cbn [concat].
  intros [Hu|Hu]%elem_of_app.
  - exists m. destruct (movie_id m) as [n| |] eqn:Hid; simpl in Hu;
      try by apply elem_of_nil in Hu.
    destruct (Z.eqb_spec n 0); [by apply elem_of_nil in Hu|].
    apply list_elem_of_singleton in Hu as ->. exists n. split; [by left|done].
  - destruct (IH Hu) as (m' & n & Hin & Hid & Hn & ->).
    exists m', n. split; [by right|done].
Qed.

(** The run on data that fit, for a title of the table. *)
Lemma recommend_fitting movie w pre r post :
  well_formed w →
  rows (movies_df w) = pre ++ r :: post →
  (∀ x, x ∈ pre → title x ≠ Some movie) →
  title r = Some movie →
  ∃ row ms,
    similarity_matrix w !! length pre = Some row ∧
    length row = length (rows (movies_df w)) ∧
    Forall2 (λ i m, rows (movies_df w) !! i.1 = Some m) (slice (distances_of row) 1 6) ms ∧
    recommend movie w
    = (Ret (title <$> ms, (λ m, poster w (movie_id m)) <$> ms),
       with_requested (requested w ++ concat ((λ m, request_of (movie_id m)) <$> ms)) w).
Proof.
  intros (Ht & Hi & Hidx & Hlen & Hrows) Hsplit Hpre Hr.
  assert (rows (movies_df w) !! length pre = Some r) as Hk.
  { rewrite Hsplit. by apply list_lookup_middle. }
  pose proof (Hidx _ _ Hk) as Hlabel.
  destruct (lookup_lt_is_Some_2 (similarity_matrix w) (length pre)) as [row Hrow].
  { rewrite Hlen. by eapply lookup_lt_Some. }
  assert (length row = length (rows (movies_df w))) as Hrowlen.
  { rewrite Forall_lookup in Hrows. by eapply Hrows. }
  destruct (rows_of_picks (movies_df w) (slice (distances_of row) 1 6)) as [ms HF].
  { intros i Hi'. apply elem_of_slice in Hi'. rewrite distances_Permutation in Hi'.
    rewrite <- Hrowlen. by apply enumerate_index_lt. }
  exists row, ms. repeat split; try done.
  pose proof (lookup_index_first _ movie w pre r post Ht Hsplit Hpre Hr) as Hl.
  pose proof (ndarray_getitem_in_range _ _ row w Hrow) as Hget. rewrite <- Hlabel in Hget.
  destruct (for_each_run _ _ _ [] [] w Ht Hi HF) as (w' & _ & Hloop).
  apply for_each_exact in Hloop as Hex. destruct Hex as (ms' & _ & _ & -> & HF' & _).
  rewrite (Forall2_unique _ _ _ _ HF' HF) in Hloop by congruence.
  unfold recommend, try_except. rewrite recommend_body_unfold, Hl. unfold top_five.
  by rewrite (bind_Ret _ _ _ _ _ Hget), Hloop.
Qed.

Lemma distances_sorted_ranks (row : list float) p q a b :
  Forall number row → p < q →
  distances_of row !! p = Some a → distances_of row !! q = Some b →
  (a.2 <? b.2)%float = false.
Proof.
  intros Hnum Hpq Ha Hb.
  assert (∀ c, c ∈ distances_of row → number c.2) as Hnumber.
  { intros c Hc. rewrite distances_Permutation in Hc.
    pose proof (enumerate_numbers row Hnum) as H. rewrite Forall_forall in H. by apply H. }
  pose proof (Hnumber a (list_elem_of_lookup_2 _ _ _ Ha)) as Hna.
  pose proof (Hnumber b (list_elem_of_lookup_2 _ _ _ Hb)) as Hnb.
  destruct (StronglySorted_lookup_1 ranked _ p q a b (distances_ranked row Hnum) Hpq Ha Hb)
    as [Hlt|[Heq Hidx]].
  - by apply ltb_asym.
  - by apply eqb_ltb in Heq as [? _].
Qed.

Lemma lookup_slice {X} (l : list X) lo hi t x :
  slice l lo hi !! t = Some x ↔ l !! (lo + t) = Some x ∧ t < hi - lo.
Proof. unfold slice. by rewrite lookup_take_Some, lookup_drop. Qed.

Lemma NoDup_picks (row : list float) lo hi : NoDup (slice (distances_of row) lo hi).*1.
Proof.
  apply (sublist_NoDup _ (distances_of row).*1).
  - rewrite distances_Permutation, fst_enumerate. apply NoDup_seq.
  - apply fmap_sublist. unfold slice.
    etrans; [apply sublist_take|apply sublist_drop].
Qed.
End Fitted.

(** X6: what [recommend] returns comes from the table.  Each name is the
    title of a row of the table, and the poster at the same place in the
    second list is the one fetched for the identifier of that row. *)
Theorem recommend_rows_of_table (movie : string) (w : world) ns ps :
  value (recommend movie) w = Ret (ns, ps) →
  ∃ ms, Forall (λ m, m ∈ rows (movies_df w)) ms ∧
        ns = title <$> ms ∧ ps = (λ m, poster w (movie_id m)) <$> ms.
Proof.
  unfold value. destruct (recommend_exact movie w) as (ms & Hrows & _ & [Hrun|[e Hrun]]);
    rewrite Hrun; intros [= <- <-].
  - by exists ms.
  - by exists [].
Qed.

Lemma recommend_rows_of_table_witness :
  ∃ ms, Forall (λ m, m ∈ rows (movies_df scenario)) ms ∧
        [Some "B"; Some "C"] = title <$> ms ∧
        [timeout_poster; timeout_poster] = (λ m, poster scenario (movie_id m)) <$> ms.
Proof.
  apply (recommend_rows_of_table "A" scenario). vm_compute. reflexivity.
Defined.

(** X7: the effects of [recommend].  It sends at most five requests, each
    the API address of the non-zero identifier of a row of the table; it
    shows at most one message, the error of line 80; and it changes nothing
    else: no file is opened, and the cache, the table and the matrix are as
    before. *)
Theorem recommend_effects (movie : string) (w : world) :
  ∃ urls, length urls ≤ 5 ∧
          (∀ u, u ∈ urls → ∃ r n, r ∈ rows (movies_df w) ∧ movie_id r = IdInt n ∧
                                  n ≠ 0%Z ∧ u = api_url n) ∧
          (after (recommend movie) w = with_requested (requested w ++ urls) w
           ∨ ∃ e, after (recommend movie) w
                  = log_message (ErrorGeneratingRecommendations e)
                      (with_requested (requested w ++ urls) w)).
Proof.
  destruct (recommend_exact movie w) as (ms & Hrows & Hlen & Hrun).
  exists (concat ((λ m, request_of (movie_id m)) <$> ms)).
  split; [pose proof (length_requests ms); lia|]. split.
  - intros u (m & n & Hm & Hid & Hn & ->)%elem_of_requests.
    exists m, n. rewrite Forall_forall in Hrows. auto.
  - unfold after. destruct Hrun as [->|[e ->]]; [by left|right; by exists e].
Qed.

(** X8: with unique titles no title is recommended twice. *)
Theorem recommend_no_repeats (movie : string) (w : world) ns ps :
  unique_titles (movies_df w) →
  value (recommend movie) w = Ret (ns, ps) →
  NoDup ns.
Proof.
  intros Huniq. unfold value.
  destruct (recommend_cases movie w)
    as (ns' & ps' & w' & Hrun & [Hb|(e & w1 & Hb & -> & -> & ->)]);
    rewrite Hrun; intros [= <- <-]; [|apply NoDup_nil_2].
  apply recommend_body_cases in Hb
    as [_ [(_ & -> & ->)|(index & row & ms & _ & _ & HF & -> & ->)]]; [apply NoDup_nil_2|].
  pose proof (NoDup_picks row 1 6) as Hpicks.
  apply NoDup_alt. intros p q t Hp Hq.
  rewrite list_lookup_fmap in Hp, Hq.
  destruct (ms !! p) as [mp|] eqn:Hmp; [|done].
  destruct (ms !! q) as [mq|] eqn:Hmq; [|done]. simpl in Hp, Hq.
  destruct (Forall2_lookup_r _ _ _ _ _ HF Hmp) as (ip & Hip & Hrp).
  destruct (Forall2_lookup_r _ _ _ _ _ HF Hmq) as (iq & Hiq & Hrq).
  assert (ip.1 = iq.1) as Hsame.
  { eapply (NoDup_lookup _ _ _ _ Huniq); rewrite list_lookup_fmap.
    - by rewrite Hrp; simpl; rewrite <- Hp.
    - by rewrite Hrq; simpl; rewrite <- Hq. }
  eapply (NoDup_lookup _ _ _ _ Hpicks); rewrite list_lookup_fmap.
  - by rewrite Hip.
  - rewrite Hiq. simpl. by rewrite Hsame.
Qed.

Lemma scenario_unique_titles : unique_titles (movies_df scenario).
Proof.
  unfold unique_titles. simpl. repeat (apply NoDup_cons; split); try apply NoDup_nil_2.
  - intros H. repeat (apply elem_of_cons in H as [[=]|H]). by apply elem_of_nil in H.
  - intros H. repeat (apply elem_of_cons in H as [[=]|H]). by apply elem_of_nil in H.
  - intros H. by apply elem_of_nil in H.
Qed.

Lemma recommend_no_repeats_witness :
  unique_titles (movies_df scenario) ∧ NoDup [Some "B"; Some "A"].
Proof.
  split; [exact scenario_unique_titles|].
  apply (recommend_no_repeats "C" scenario _ [timeout_poster; timeout_poster]
           scenario_unique_titles).
  vm_compute. reflexivity.
Defined.

(** X9: on data that fit, the movies returned for a title of the table are
    those at ranks 1 to 5 of its similarity row, in this order, and none of
    the movies left out, the one at rank 0 apart, has a greater score than a
    movie that is returned.  The scores of the row are numbers. *)
Theorem recommend_top_ranked (movie : string) (w : world) pre r post row :
  well_formed w →
  rows (movies_df w) = pre ++ r :: post →
  (∀ x, x ∈ pre → title x ≠ Some movie) →
  title r = Some movie →
  similarity_matrix w !! length pre = Some row →
  Forall number row →
  ∃ ms, value (recommend movie) w
        = Ret (title <$> ms, (λ m, poster w (movie_id m)) <$> ms) ∧
        Forall2 (λ i m, rows (movies_df w) !! i.1 = Some m)
          (slice (distances_of row) 1 6) ms ∧
        ∀ i j x, i ∈ slice (distances_of row) 1 6 →
                 row !! j = Some x →
                 (j, x) ∉ slice (distances_of row) 1 6 →
                 distances_of row !! 0 ≠ Some (j, x) →
                 (i.2 <? x)%float = false.
Proof.
  intros Hwf Hsplit Hpre Hr Hrow Hnum.
  destruct (recommend_fitting movie w pre r post Hwf Hsplit Hpre Hr)
    as (row' & ms & Hrow' & _ & HF & Hrun).
  assert (row' = row) as -> by congruence.
  exists ms. split; [unfold value; by rewrite Hrun|]. split; [done|].
  intros i j x Hi Hx Hout Hzero.
  apply list_elem_of_lookup_1 in Hi as [t Ht]. apply lookup_slice in Ht as [Hp Hlt].
  assert ((j, x) ∈ distances_of row) as Hin.
  { rewrite distances_Permutation. by apply elem_of_enumerate. }
  apply list_elem_of_lookup_1 in Hin as [q Hq].
  assert (6 ≤ q) as Hq6.
  { destruct (decide (q = 0)) as [->|Hq0]; [done|].
    destruct (decide (q < 6)) as [Hlt6|]; [|lia]. exfalso. apply Hout.
    apply (list_elem_of_lookup_2 _ (q - 1)), lookup_slice.
    split; [|lia]. by replace (1 + (q - 1)) with q by lia. }
  apply (distances_sorted_ranks row (1 + t) q i (j, x)); [done|lia|done..].
Qed.

Lemma recommend_top_ranked_witness :
  ∃ ms, value (recommend "A") scenario
        = Ret (title <$> ms, (λ m, poster scenario (movie_id m)) <$> ms) ∧
        Forall2 (λ i m, rows (movies_df scenario) !! i.1 = Some m)
          (slice (distances_of scenario_row) 1 6) ms ∧
        ∀ i j x, i ∈ slice (distances_of scenario_row) 1 6 →
                 scenario_row !! j = Some x →
                 (j, x) ∉ slice (distances_of scenario_row) 1 6 →
                 distances_of scenario_row !! 0 ≠ Some (j, x) →
                 (i.2 <? x)%float = false.
Proof.
  apply (recommend_top_ranked "A" scenario []
           {| label := 0; title := Some "A"; movie_id := IdInt 1 |}
           [ {| label := 1; title := Some "B"; movie_id := IdInt 2 |};
             {| label := 2; title := Some "C"; movie_id := IdInt 3 |} ] scenario_row
           scenario_well_formed eq_refl).
  - intros x Hx. by apply elem_of_nil in Hx.
  - reflexivity.
  - reflexivity.
  - by repeat constructor.
Defined.

(** X10: on data that fit, [recommend] shows no error, for a title of the
    table as for any other text: all it changes is the list of requests. *)
Theorem recommend_quiet (movie : string) (w : world) :
  well_formed w →
  ∃ urls, after (recommend movie) w = with_requested (requested w ++ urls) w.
Proof.
  intros Hwf.
  destruct (decide (Exists (λ r, title r = Some movie) (rows (movies_df w)))) as [Hin|Hout].
  - apply Exists_exists in Hin as (r0 & Hr0 & Ht0).
    destruct (first_row (rows (movies_df w)) movie) as (pre & r & post & Hsplit & Hpre & Hr);
      [by exists r0|].
    destruct (recommend_fitting movie w pre r post Hwf Hsplit Hpre Hr)
      as (row & ms & _ & _ & _ & Hrun).
    eexists. unfold after. by rewrite Hrun.
  - exists []. rewrite with_requested_id.
    apply recommend_absent; [|apply Hwf].
    intros r Hr Ht. apply Hout, Exists_exists. by exists r.
Qed.

Lemma recommend_quiet_witness :
  well_formed scenario ∧
  ∃ urls, after (recommend "B") scenario
          = with_requested (requested scenario ++ urls) scenario.
Proof.
  split; [exact scenario_well_formed|].
  exact (recommend_quiet "B" scenario scenario_well_formed).
Defined.

(* ================================================================= *)
(** ** What [load_data] keeps and what it leaves *)

(** X11: a load that fails is not remembered.  With nothing cached, if
    [load_data] raises then what it raises is the stop of the script, it
    has shown one message, and the cache is still empty, so that the next
    run reads the files again. *)
Theorem load_data_failure_not_cached (w : world) (e : exn) :
  cache w = None →
  value load_data w = Raise e →
  e = StopException ∧
  cache (after load_data w) = None ∧
  ∃ msg, shown (after load_data w) = shown w ++ [msg].
Proof.
  intros Hcache. unfold value, after. rewrite load_data_miss by done. simpl.
  destruct (storage w "movie_list.pkl") as [| |m]; simpl.
  - intros [= <-]. eauto.
  - intros [= <-]. eauto.
  - destruct (storage w "similarity.pkl") as [| |s]; simpl; [| |done];
      intros [= <-]; eauto.
Qed.

Lemma load_data_failure_not_cached_witness :
  cache fresh = None ∧ value load_data fresh = Raise StopException ∧
  cache (after load_data fresh) = None.
Proof.
  split; [reflexivity|]. split; [reflexivity|].
  apply (load_data_failure_not_cached fresh StopException); reflexivity.
Defined.

(** X12: the files are read in order, and the second only after the first.
    With nothing cached, if the movie list is missing or cannot be
    unpickled then the similarity file is not opened, and the message is
    the one for missing files only when the file is missing. *)
Theorem load_data_first_file_first (w : world) :
  cache w = None →
  (∀ m, storage w "movie_list.pkl" ≠ Pickle m) →
  opened (after load_data w) = opened w ++ ["movie_list.pkl"] ∧
  shown (after load_data w)
  = shown w ++ [match storage w "movie_list.pkl" with
                | Missing => FilesNotFound
                | _ => ErrorLoadingData UnpicklingError
                end].
Proof.
  intros Hcache Hfirst. unfold after. rewrite load_data_miss by done. simpl.
  destruct (storage w "movie_list.pkl") as [| |m]; simpl; try done.
  by destruct (Hfirst m).
Qed.

Lemma load_data_first_file_first_witness :
  cache fresh = None ∧
  opened (after load_data fresh) = ["movie_list.pkl"] ∧
  shown (after load_data fresh) = [FilesNotFound].
Proof.
  split; [reflexivity|].
  apply (load_data_first_file_first fresh); [reflexivity|discriminate].
Defined.

(** X13: once loaded, the pair stays.  After a first call that found both
    files, [load_data] returns the same pair whatever the files hold by
    then, missing or changed, and does not look at them. *)
Theorem load_data_keeps_first_result (w : world) (m s : pyobj) (files : string → file) :
  cache w = None →
  storage w "movie_list.pkl" = Pickle m →
  storage w "similarity.pkl" = Pickle s →
  let w1 := with_storage files (after load_data w) in
  load_data w1 = (Ret (m, s), w1).
Proof.
  intros Hcache Hm Hs w1. apply load_data_hit. unfold w1, after.
  rewrite load_data_miss by done. by rewrite Hm, Hs.
Qed.

Lemma load_data_keeps_first_result_witness :
  cache stored = None ∧
  value load_data (with_storage (λ _, Missing) (after load_data stored))
  = Ret (PyDataFrame scenario_table, PyArray scenario_matrix).
Proof.
  split; [reflexivity|]. unfold value.
  by rewrite (load_data_keeps_first_result stored (PyDataFrame scenario_table)
                (PyArray scenario_matrix) (λ _, Missing) eq_refl eq_refl eq_refl).
Defined.

(* ================================================================= *)
(** ** The options of the dropdown *)

Section Strings.
Implicit Types (a b c x y : string) (l : list string).

Lemma str_ltb_lt a b : String.ltb a b = true ↔ OrderedTypeEx.String_as_OT.lt a b.
Proof.
  rewrite <- OrderedTypeEx.String_as_OT.cmp_lt. unfold String.ltb, OrderedTypeEx.String_as_OT.cmp.
  by destruct (String.compare a b).
Qed.

Lemma str_ltb_trans a b c :
  String.ltb a b = true → String.ltb b c = true → String.ltb a c = true.
Proof. rewrite !str_ltb_lt. apply OrderedTypeEx.String_as_OT.lt_trans. Qed.

Lemma str_ltb_cases a b : String.ltb a b = true ∨ a = b ∨ String.ltb b a = true.
Proof.
  unfold String.ltb. rewrite (String.compare_antisym b a).
  destruct (String.compare a b) eqn:E; simpl; auto.
  right. left. by apply String.compare_eq_iff.
Qed.

Lemma str_ltb_irrefl a : String.ltb a a = false.
Proof.
  unfold String.ltb. pose proof (String.compare_antisym a a) as H.
  by destruct (String.compare a a).
Qed.

Lemma str_ltb_asym a b : String.ltb a b = true → String.ltb b a = false.
Proof.
  unfold String.ltb. rewrite (String.compare_antisym b a).
  by destruct (String.compare a b).
Qed.

(** [a ≤ b ≤ c] gives [a ≤ c], where [a ≤ b] is [¬ b < a]. *)
Lemma str_le_trans a b c :
  String.ltb b a = false → String.ltb c b = false → String.ltb c a = false.
Proof.
  intros Hab Hbc. destruct (String.ltb c a) eqn:Hca; [|done].
  destruct (str_ltb_cases b c) as [Hlt|[->|Hlt]]; [|congruence..].
  by rewrite (str_ltb_trans _ _ _ Hlt Hca) in Hab.
Qed.

Lemma str_empty_least a : String.ltb a "" = false.
Proof. by destruct a. Qed.

Lemma insert_str_Permutation x l : insert_str x l ≡ₚ x :: l.
Proof.
  induction l as [|y l IH]; simpl; [done|].
  destruct (String.ltb y x); [|done]. rewrite IH. apply Permutation_swap.
Qed.

Lemma sorted_str_Permutation l : sorted_str l ≡ₚ l.
Proof.
  induction l as [|x l IH]; simpl; [done|]. by rewrite insert_str_Permutation, IH.
Qed.

Lemma insert_str_sorted x l :
  StronglySorted (λ a b, String.ltb b a = false) l →
  StronglySorted (λ a b, String.ltb b a = false) (insert_str x l).
Proof.
  induction l as [|y l IH]; simpl; intros Hsort; [repeat constructor|].
  apply StronglySorted_inv in Hsort as [Hsort Hall].
  destruct (String.ltb y x) eqn:E.
  - constructor; [by apply IH|].
    rewrite insert_str_Permutation. constructor; [by apply str_ltb_asym|done].
  - constructor; [by constructor|]. constructor; [done|].
    rewrite Forall_forall in Hall |- *. intros z Hz.
    by apply (str_le_trans _ y), Hall.
Qed.

Lemma sorted_str_sorted l :
  StronglySorted (λ a b, String.ltb b a = false) (sorted_str l).
Proof. induction l as [|x l IH]; simpl; [constructor|by apply insert_str_sorted]. Qed.

Lemma sorted_NoDup_strict l :
  NoDup l → StronglySorted (λ a b, String.ltb b a = false) l →
  StronglySorted (λ a b, String.ltb a b = true) l.
Proof.
  induction 2 as [|x l Hsort IH Hall]; [constructor|].
  apply NoDup_cons in H as [Hx Hl]. constructor; [by apply IH|].
  rewrite Forall_forall in Hall |- *. intros y Hy.
  destruct (str_ltb_cases x y) as [?|[->|Hlt]]; [done|done|].
  by rewrite (Hall y Hy) in Hlt.
Qed.

Lemma elem_of_unique x l : x ∈ unique l ↔ x ∈ l.
Proof.
  induction l as [|y l IH]; simpl; [done|].
  rewrite !elem_of_cons, list_elem_of_filter, IH.
  destruct (decide (x = y)) as [->|Hxy]; [by split; left|].
  split; [intros [?|[_ ?]]|intros [?|?]]; try done; right; by try split.
Qed.

Lemma NoDup_unique l : NoDup (unique l).
Proof.
  induction l as [|y l IH]; simpl; [constructor|].
  apply NoDup_cons. split; [|by apply NoDup_filter].
  rewrite list_elem_of_filter. by intros [Hy _].
Qed.

Lemma elem_of_dropna (cells : list (option string)) x :
  x ∈ dropna cells ↔ Some x ∈ cells.
Proof.
  unfold dropna. rewrite list_elem_of_omap. split.
  - intros (o & Ho & Heq). by simplify_eq/=.
  - intros H. by exists (Some x).
Qed.

(** The run of line 106. *)
Lemma movie_list_run (df : DataFrame) (w : world) :
  "title" ∈ columns df →
  ∃ options, movie_list df w = (Ret options, w) ∧
    (∀ s, s ∈ options ↔ ∃ r, r ∈ rows df ∧ title r = Some s) ∧
    NoDup options ∧
    StronglySorted (λ a b, String.ltb a b = true) options.
Proof.
  intros Hcol. eexists. split.
  { unfold movie_list, df_column, bind, ret. by rewrite decide_True by done. }
  assert (NoDup (sorted_str (unique (dropna (title <$> rows df))))) as Hnodup.
  { rewrite sorted_str_Permutation. apply NoDup_unique. }
  split; [|split; [done|]].
  - intros s. rewrite sorted_str_Permutation, elem_of_unique, elem_of_dropna.
    rewrite list_elem_of_fmap. split.
    + intros (r & Ht & Hr). by exists r.
    + intros (r & Hr & Ht). by exists r.
  - apply sorted_NoDup_strict; [done|apply sorted_str_sorted].
Qed.

Lemma selectbox_elem (options : list string) chosen :
  options ≠ [] → selectbox options chosen ∈ options.
Proof.
  intros Hne. unfold selectbox. destruct (options !! chosen) as [s|] eqn:E; simpl.
  - by eapply list_elem_of_lookup_2.
  - destruct options as [|s options]; [done|]. simpl. by left.
Qed.
End Strings.

(* ================================================================= *)
(** ** The page *)

Section Page.
Implicit Types (p : page) (w : world) (ui : widgets).

Lemma draw_draw a b p : draw b (draw a p) = draw (a ++ b) p.
Proof. unfold draw. simpl. by rewrite app_assoc. Qed.

Lemma draw_nil p : draw [] p = p.
Proof. destruct p. unfold draw. simpl. by rewrite app_nil_r. Qed.

Lemma on_world_session p : on_world (session p) p = p.
Proof. by destruct p. Qed.

Lemma emit_run at_ e p : emit at_ e p = (Ret tt, draw [(at_, e)] p).
Proof. done. Qed.

Lemma lift_run {A} (m : M world A) p :
  lift m p = ((m (session p)).1, on_world (m (session p)).2 p).
Proof. unfold lift. by destruct (m (session p)). Qed.

(** A column: lines 135-142. *)
Lemma show_column_run ui i name poster p :
  tolerant ui →
  show_column ui i name poster p = (Ret tt, draw (drawn_in_column ui i name poster) p).
Proof.
  intros [Hfallback Hexn].
  unfold show_column, drawn_in_column, bind, try_except, st_image.
  rewrite emit_run. destruct (image_error ui poster) as [e|] eqn:E.
  - unfold raise. simpl. rewrite (Hexn _ _ E). simpl.
    rewrite Hfallback. unfold emit, modify, draw. simpl. by rewrite <- !app_assoc.
  - rewrite emit_run. by rewrite draw_draw.
Qed.

(** The loop of lines 132-142. *)
Lemma show_loop_run ui (entries : list (nat * (option string * string))) : ∀ p,
  tolerant ui →
  Forall (λ entry, entry.1 < 5) entries →
  for_each entries
    (λ entry _, let '(i, (name, poster)) := entry in
                if (i <? 5)%nat then show_column ui i name poster else ret tt) tt p
  = (Ret tt, draw (columns_drawn ui entries) p).
Proof.
  induction entries as [|[i [name poster]] entries IH]; intros p Hui Hall.
  - simpl. by rewrite draw_nil.
  - apply Forall_cons in Hall as [Hi Hall]. simpl in Hi.
    simpl. unfold bind. apply Nat.ltb_lt in Hi. rewrite Hi.
    rewrite show_column_run by done. rewrite IH by done.
    by rewrite draw_draw.
Qed.

Lemma enumerate_bound {A} (l : list A) n :
  length l ≤ n → Forall (λ entry, entry.1 < n) (enumerate l).
Proof.
  intros Hlen. apply Forall_forall. intros [i x] Hin.
  apply enumerate_index_lt in Hin. simpl in *. lia.
Qed.

Lemma show_recommendations_run ui selected names posters p :
  tolerant ui → length names ≤ 5 →
  show_recommendations ui selected names posters p
  = (Ret tt, draw ([(Body, Success selected); (Body, Markdown Separator); (Body, Columns 5)]
                   ++ columns_drawn ui (enumerate (zip names posters))) p).
Proof.
  intros Hui Hlen. unfold show_recommendations, bind. rewrite !emit_run.
  rewrite show_loop_run; [by rewrite !draw_draw|done|].
  apply enumerate_bound. rewrite length_zip. lia.
Qed.

(** Every run of [recommend] returns two lists of one length, at most five. *)
Lemma recommend_returns movie w :
  ∃ names posters w',
    recommend movie w = (Ret (names, posters), w') ∧
    length names = length posters ∧ length names ≤ 5.
Proof.
  destruct (recommend_exact movie w) as (ms & _ & Hlen & [Hrun|[e Hrun]]);
    rewrite Hrun; do 3 eexists; (split; [done|]).
  - by rewrite !length_fmap.
  - simpl. split; [done|lia].
Qed.

(** What a press of the button draws. *)
Lemma on_click_run ui selected p names posters w' :
  tolerant ui →
  recommend selected (session p) = (Ret (names, posters), w') →
  on_click ui selected p
  = (Ret tt,
     if String.eqb selected "" then draw [(Body, Warning SelectMovieFirst)] p
     else if bool_decide (names = [])
          then draw [(Body, Warning NoRecommendationsFound)] (on_world w' p)
          else draw ([(Body, Success selected); (Body, Markdown Separator); (Body, Columns 5)]
                     ++ columns_drawn ui (enumerate (zip names posters)))
                    (on_world w' p)).
Proof.
  intros Hui Hrun. unfold on_click.
  destruct (String.eqb selected "") eqn:Hsel; simpl; [done|].
  unfold bind. rewrite lift_run, Hrun. simpl.
  destruct (recommend_returns selected (session p)) as (ns & ps & w1 & Hrun' & _ & Hlen).
  rewrite Hrun in Hrun'. simplify_eq.
  case_bool_decide as Hnil; simpl.
  - done.
  - destruct ns as [|n ns]; [done|]. simpl.
    by rewrite show_recommendations_run.
Qed.

(** The sidebar draws in the sidebar only and leaves the world alone; it
    raises only for the debug information of a table without ids. *)
Lemma sidebar_run ui (movies : DataFrame) p :
  ∃ r more, sidebar ui movies p = (r, draw more p) ∧
            Forall (λ e, e.1 = Sidebar) more ∧
            (Sidebar, Metric (TotalMovies (length (rows movies)))) ∈ more ∧
            ((debug ui = true → "id" ∈ columns movies) → r = Ret tt).
Proof.
  unfold sidebar, bind, try_except, emit, modify, lift, df_column, ret, raise, draw.
  simpl. destruct (debug ui); simpl.
  - destruct (decide ("id" ∈ columns movies)) as [Hid|Hid]; simpl;
      do 2 eexists; rewrite <- !app_assoc; simpl.
    all: split; [reflexivity|]; split; [by repeat constructor|].
    all: split; [by apply (list_elem_of_lookup_2 _ 3)|].
    + done.
    + intros H. destruct Hid. by apply H.
  - do 2 eexists. rewrite <- !app_assoc. simpl.
    split; [reflexivity|]. split; [by repeat constructor|].
    split; [by apply (list_elem_of_lookup_2 _ 3)|done].
Qed.
End Page.

Section Main.
Implicit Types (p : page) (w : world) (ui : widgets).

(** [main] after the checks, by its parts. *)
Lemma main_rest_unfold ui p options :
  movie_list (movies_df (session p)) (session p) = (Ret options, session p) →
  main_rest ui p
  = if (length options =? 0)%nat then (Ret tt, draw [(Body, Error NoMoviesFound)] p)
    else
      match (if clicked ui then on_click ui (selectbox options (choice ui)) else ret tt)
              (draw [(Body, Selectbox options); (Body, Markdown LineBreak); (Body, Button)] p)
      with
      | (Ret _, p1) =>
          sidebar ui (movies_df (session p))
            (draw [(Body, Markdown Separator); (Body, Markdown FooterText)] p1)
      | (Raise e, p1) => (Raise e, p1)
      end.
Proof.
  intros Hlist. unfold main_rest. unfold bind at 1. rewrite lift_run. simpl.
  rewrite on_world_session. unfold bind at 1. rewrite lift_run, Hlist. simpl.
  rewrite on_world_session. destruct (length options =? 0)%nat; [done|].
  unfold bind. rewrite !emit_run, !draw_draw. simpl.
  case_match. destruct r as [[]|e]; [|done].
  unfold draw. simpl. by rewrite <- app_assoc.
Qed.
End Main.

Section MainRuns.
Implicit Types (p : page) (w : world) (ui : widgets).

Lemma press_tolerant : tolerant press.
Proof. by split. Qed.

(** With no press of the button, the footer and the sidebar follow the
    button. *)
Lemma main_rest_idle_run ui p options :
  clicked ui = false →
  movie_list (movies_df (session p)) (session p) = (Ret options, session p) →
  options ≠ [] →
  ∃ r side,
    main_rest ui p
    = (r, draw ([(Body, Selectbox options); (Body, Markdown LineBreak); (Body, Button);
                 (Body, Markdown Separator); (Body, Markdown FooterText)] ++ side) p) ∧
    Forall (λ e, e.1 = Sidebar) side ∧
    ((debug ui = true → "id" ∈ columns (movies_df (session p))) → r = Ret tt).
Proof.
  intros Hclick Hlist Hne. rewrite (main_rest_unfold ui p options Hlist), Hclick.
  destruct options as [|o options]; [done|]. simpl. unfold ret. rewrite draw_draw.
  destruct (sidebar_run ui (movies_df (session p))
              (draw ([(Body, Selectbox (o :: options)); (Body, Markdown LineBreak);
                      (Body, Button)]
                     ++ [(Body, Markdown Separator); (Body, Markdown FooterText)]) p))
    as (r & side & -> & Hside & _ & Hr).
  exists r, side. by rewrite draw_draw.
Qed.

(** With a press of the button that returns, the footer and the sidebar
    follow what the press drew. *)
Lemma main_rest_pressed_run ui p options p1 :
  clicked ui = true →
  movie_list (movies_df (session p)) (session p) = (Ret options, session p) →
  options ≠ [] →
  on_click ui (selectbox options (choice ui))
    (draw [(Body, Selectbox options); (Body, Markdown LineBreak); (Body, Button)] p)
  = (Ret tt, p1) →
  ∃ r side,
    main_rest ui p
    = (r, draw ([(Body, Markdown Separator); (Body, Markdown FooterText)] ++ side) p1) ∧
    Forall (λ e, e.1 = Sidebar) side ∧
    ((debug ui = true → "id" ∈ columns (movies_df (session p))) → r = Ret tt).
Proof.
  intros Hclick Hlist Hne Hpress. rewrite (main_rest_unfold ui p options Hlist), Hclick.
  destruct options as [|o options]; [done|]. simpl length. cbn [Nat.eqb]. rewrite Hpress.
  destruct (sidebar_run ui (movies_df (session p))
              (draw [(Body, Markdown Separator); (Body, Markdown FooterText)] p1))
    as (r & side & -> & Hside & _ & Hr).
  exists r, side. by rewrite draw_draw.
Qed.

Lemma on_click_empty ui p :
  on_click ui "" p = (Ret tt, draw [(Body, Warning SelectMovieFirst)] p).
Proof. done. Qed.

Lemma on_click_none ui selected p posters w' :
  selected ≠ "" →
  recommend selected (session p) = (Ret ([], posters), w') →
  on_click ui selected p
  = (Ret tt, draw [(Body, Warning NoRecommendationsFound)] (on_world w' p)).
Proof.
  intros Hsel Hrun. unfold on_click.
  apply String.eqb_neq in Hsel. rewrite Hsel. simpl.
  unfold bind. by rewrite lift_run, Hrun.
Qed.

(** The first option is the empty text when a movie has it as its title. *)
Lemma options_head_empty (options : list string) :
  StronglySorted (λ a b, String.ltb a b = true) options →
  "" ∈ options → head options = Some "".
Proof.
  intros Hsort Hin. destruct options as [|o options]; [by apply elem_of_nil in Hin|].
  simpl. apply elem_of_cons in Hin as [<-|Hin]; [done|].
  apply StronglySorted_inv in Hsort as [_ Hall]. rewrite Forall_forall in Hall.
  specialize (Hall _ Hin). by rewrite str_empty_least in Hall.
Qed.

Lemma movie_list_nonempty (df : DataFrame) w options r s :
  "title" ∈ columns df → movie_list df w = (Ret options, w) →
  r ∈ rows df → title r = Some s → s ∈ options ∧ options ≠ [].
Proof.
  intros Hcol Hrun Hr Hs.
  destruct (movie_list_run df w Hcol) as (options' & Hrun' & Hin & _).
  rewrite Hrun in Hrun'. simplify_eq.
  assert (s ∈ options') as Hs'; [apply Hin; by exists r|].
  split; [done|]. intros ->. by apply elem_of_nil in Hs'.
Qed.
End MainRuns.

(* ================================================================= *)
(** ** What the page shows *)

(** X14: the options of the dropdown.  For a table with a title column,
    line 106 gives the titles of the table that are not NaN, each once, in
    strictly ascending order of their text. *)
Theorem movie_list_options (df : DataFrame) (w : world) :
  "title" ∈ columns df →
  ∃ options,
    movie_list df w = (Ret options, w) ∧
    (∀ s, s ∈ options ↔ ∃ r, r ∈ rows df ∧ title r = Some s) ∧
    (∀ i j a b, i < j → options !! i = Some a → options !! j = Some b →
                String.ltb a b = true).
Proof.
  intros Hcol. destruct (movie_list_run df w Hcol) as (options & Hrun & Hin & _ & Hsort).
  exists options. split; [done|]. split; [done|].
  intros i j a b Hij Ha Hb.
  by apply (StronglySorted_lookup_1 _ _ i j a b Hsort).
Qed.

Lemma movie_list_options_witness :
  ∃ options,
    movie_list (table [("B", 2%Z); ("A", 1%Z); ("A", 3%Z)]) fresh = (Ret options, fresh) ∧
    (∀ s, s ∈ options
          ↔ ∃ r, r ∈ rows (table [("B", 2%Z); ("A", 1%Z); ("A", 3%Z)]) ∧ title r = Some s) ∧
    (∀ i j a b, i < j → options !! i = Some a → options !! j = Some b →
                String.ltb a b = true).
Proof. apply movie_list_options. vm_compute. set_solver. Defined.

(** X15: what the dropdown offers, [recommend] finds.  Whatever option
    is chosen, the lookup of line 61 does not come back empty: it gives
    the label of the first row that has the chosen title. *)
Theorem dropdown_choice_is_found (w : world) (options : list string) (chosen : nat) :
  "title" ∈ columns (movies_df w) →
  value (movie_list (movies_df w)) w = Ret options →
  options ≠ [] →
  ∃ pre r post,
    rows (movies_df w) = pre ++ r :: post ∧
    (∀ x, x ∈ pre → title x ≠ Some (selectbox options chosen)) ∧
    title r = Some (selectbox options chosen) ∧
    value (lookup_index (movies_df w) (selectbox options chosen)) w = Ret (Some (label r)).
Proof.
  intros Hcol Hlist Hne.
  destruct (movie_list_run (movies_df w) w Hcol) as (options' & Hrun & Hin & _).
  unfold value in Hlist. rewrite Hrun in Hlist. simplify_eq/=.
  pose proof (selectbox_elem options chosen Hne) as Hsel. apply Hin in Hsel.
  destruct (first_row _ _ Hsel) as (pre & r & post & Hsplit & Hpre & Hr).
  exists pre, r, post. repeat split; try done.
  unfold value. by rewrite (lookup_index_first _ _ w pre r post Hcol Hsplit Hpre Hr).
Qed.

Lemma dropdown_choice_is_found_witness :
  ∃ pre r post,
    rows (movies_df duplicates) = pre ++ r :: post ∧
    (∀ x, x ∈ pre → title x ≠ Some (selectbox ["A"; "B"] 0)) ∧
    title r = Some (selectbox ["A"; "B"] 0) ∧
    value (lookup_index (movies_df duplicates) (selectbox ["A"; "B"] 0)) duplicates
    = Ret (Some (label r)).
Proof.
  apply (dropdown_choice_is_found duplicates ["A"; "B"] 0).
  - vm_compute. set_solver.
  - reflexivity.
  - discriminate.
Defined.

(** X16: a table without titles.  When no row has a title, the page shows
    the error of line 109 and nothing else: no dropdown, no button, no
    footer and no sidebar; the world is as it was. *)
Theorem main_rest_no_titles (ui : widgets) (p : page) :
  "title" ∈ columns (movies_df (session p)) →
  (∀ r, r ∈ rows (movies_df (session p)) → title r = None) →
  main_rest ui p = (Ret tt, draw [(Body, Error NoMoviesFound)] p).
Proof.
  intros Hcol Hnone.
  destruct (movie_list_run (movies_df (session p)) (session p) Hcol)
    as (options & Hrun & Hin & _).
  rewrite (main_rest_unfold ui p options Hrun).
  destruct options as [|o options]; [done|].
  destruct (proj1 (Hin o)) as (r & Hr & Ht); [by left|].
  by rewrite (Hnone r Hr) in Ht.
Qed.

Lemma main_rest_no_titles_witness :
  main_rest look (blank nameless)
  = (Ret tt, draw [(Body, Error NoMoviesFound)] (blank nameless)).
Proof.
  apply main_rest_no_titles.
  - vm_compute. set_solver.
  - intros r Hr. apply list_elem_of_singleton in Hr. by subst.
Defined.

(** X17: a page on which the button is not pressed asks nothing of the
    network and shows no message: the world after [main] is the world
    before it, whatever the table is. *)
Theorem main_rest_idle (ui : widgets) (p : page) :
  clicked ui = false → session (after (main_rest ui) p) = session p.
Proof.
  intros Hclick. unfold after.
  destruct (decide ("title" ∈ columns (movies_df (session p)))) as [Hcol|Hcol].
  - destruct (movie_list_run (movies_df (session p)) (session p) Hcol)
      as (options & Hrun & _).
    destruct (decide (options = [])) as [->|Hne].
    + by rewrite (main_rest_unfold ui p [] Hrun).
    + by destruct (main_rest_idle_run ui p options Hclick Hrun Hne) as (r & side & -> & _).
  - unfold main_rest, bind. rewrite !lift_run. simpl.
    unfold movie_list, df_column, bind. by rewrite decide_False by done.
Qed.

Lemma main_rest_idle_witness :
  session (after (main_rest look) (blank scenario)) = scenario.
Proof. exact (main_rest_idle look (blank scenario) eq_refl). Defined.

(** X18: every recommendation is shown.  After a press of the button for
    a movie for which [recommend] returns names, the page shows the
    dropdown, the button, the success line and five columns, then for each
    returned pair, in the order returned, its name and its poster in the
    column of its rank, then the footer and the sidebar.  No pair is left
    out: the two lists have one length and the test of line 133 never
    fails.  An image that fails to load is replaced by the fallback. *)
Theorem main_rest_shows_all (ui : widgets) (p : page) (options : list string)
    (names : list (option string)) (posters : list string) (w' : world) :
  tolerant ui →
  clicked ui = true →
  "title" ∈ columns (movies_df (session p)) →
  value (movie_list (movies_df (session p))) (session p) = Ret options →
  options ≠ [] →
  selectbox options (choice ui) ≠ "" →
  recommend (selectbox options (choice ui)) (session p) = (Ret (names, posters), w') →
  names ≠ [] →
  length (zip names posters) = length names ∧ length names ≤ 5 ∧
  ∃ side,
    Forall (λ e, e.1 = Sidebar) side ∧
    session (after (main_rest ui) p) = w' ∧
    elements (after (main_rest ui) p)
    = elements p
      ++ [(Body, Selectbox options); (Body, Markdown LineBreak); (Body, Button);
          (Body, Success (selectbox options (choice ui)));
          (Body, Markdown Separator); (Body, Columns 5)]
      ++ columns_drawn ui (enumerate (zip names posters))
      ++ [(Body, Markdown Separator); (Body, Markdown FooterText)] ++ side.
Proof.
  intros Hui Hclick Hcol Hlist Hne Hsel Hrun Hnames.
  destruct (movie_list_run (movies_df (session p)) (session p) Hcol)
    as (options' & Hrun' & _).
  unfold value in Hlist. rewrite Hrun' in Hlist. simplify_eq/=.
  destruct (recommend_returns (selectbox options (choice ui)) (session p))
    as (ns & ps & w1 & Hrun1 & Hlen & Hfive).
  rewrite Hrun in Hrun1. simplify_eq.
  split; [rewrite length_zip; lia|]. split; [done|].
  pose proof (on_click_run ui (selectbox options (choice ui))
                (draw [(Body, Selectbox options); (Body, Markdown LineBreak); (Body, Button)] p)
                ns ps w1 Hui Hrun) as Hpress.
  apply String.eqb_neq in Hsel. rewrite Hsel in Hpress.
  rewrite bool_decide_eq_false_2 in Hpress by done.
  destruct (main_rest_pressed_run ui p options _ Hclick Hrun' Hne Hpress)
    as (r & side & Hmain & Hside & _).
  exists side. split; [done|]. unfold after. rewrite Hmain. simpl.
  split; [done|]. by rewrite <- !app_assoc.
Qed.

Lemma main_rest_shows_all_witness :
  length (zip [Some "B"; Some "C"] [timeout_poster; timeout_poster]) = 2 ∧ 2 ≤ 5 ∧
  ∃ side,
    Forall (λ e, e.1 = Sidebar) side ∧
    session (after (main_rest press) (blank scenario))
    = with_requested [api_url 2; api_url 3] scenario ∧
    elements (after (main_rest press) (blank scenario))
    = elements (blank scenario)
      ++ [(Body, Selectbox ["A"; "B"; "C"]); (Body, Markdown LineBreak); (Body, Button);
          (Body, Success (selectbox ["A"; "B"; "C"] (choice press)));
          (Body, Markdown Separator); (Body, Columns 5)]
      ++ columns_drawn press
           (enumerate (zip [Some "B"; Some "C"] [timeout_poster; timeout_poster]))
      ++ [(Body, Markdown Separator); (Body, Markdown FooterText)] ++ side.
Proof.
  apply (main_rest_shows_all press (blank scenario) ["A"; "B"; "C"]
           [Some "B"; Some "C"] [timeout_poster; timeout_poster]
           (with_requested [api_url 2; api_url 3] scenario)).
  - by split.
  - reflexivity.
  - vm_compute. set_solver.
  - reflexivity.
  - discriminate.
  - discriminate.
  - reflexivity.
  - discriminate.
Defined.

(** X19: a movie whose title is the empty text.  Its title sorts before
    every other one, so it is the option the dropdown starts on; with it
    chosen, a press of the button gives the warning of line 146, and
    [recommend] is not called: the world is as it was. *)
Theorem main_rest_empty_title (ui : widgets) (p : page) :
  "title" ∈ columns (movies_df (session p)) →
  (∃ r, r ∈ rows (movies_df (session p)) ∧ title r = Some "") →
  clicked ui = true →
  choice ui = 0 →
  session (after (main_rest ui) p) = session p ∧
  (Body, Warning SelectMovieFirst) ∈ elements (after (main_rest ui) p).
Proof.
  intros Hcol (r0 & Hr0 & Ht0) Hclick Hchoice.
  destruct (movie_list_run (movies_df (session p)) (session p) Hcol)
    as (options & Hrun & Hin & _ & Hsort).
  destruct (movie_list_nonempty _ _ _ _ _ Hcol Hrun Hr0 Ht0) as [Hempty Hne].
  pose proof (options_head_empty options Hsort Hempty) as Hhead.
  assert (selectbox options (choice ui) = "") as Hsel.
  { rewrite Hchoice. unfold selectbox. destruct options; by simplify_eq/=. }
  pose proof (on_click_empty ui
                (draw [(Body, Selectbox options); (Body, Markdown LineBreak); (Body, Button)] p))
    as Hpress.
  rewrite <- Hsel in Hpress at 1.
  destruct (main_rest_pressed_run ui p options _ Hclick Hrun Hne Hpress)
    as (r & side & Hmain & Hside & _).
  unfold after. rewrite Hmain. simpl. split; [done|].
  rewrite !elem_of_app, !elem_of_cons. auto 10.
Qed.

Lemma main_rest_empty_title_witness :
  session (after (main_rest press) (blank untitled)) = session (blank untitled) ∧
  (Body, Warning SelectMovieFirst) ∈ elements (after (main_rest press) (blank untitled)).
Proof.
  apply (main_rest_empty_title press (blank untitled)).
  - vm_compute. set_solver.
  - eexists. split; [right; left; reflexivity|reflexivity].
  - reflexivity.
  - reflexivity.
Defined.

(** X20: a table of one movie.  On data that fit, when the table has one
    row, a press of the button for its movie shows the warning of line 144:
    there is nothing to recommend, no poster is asked for and the world is
    as it was. *)
Theorem main_rest_single_movie (ui : widgets) (p : page) (r : Movie) (movie : string) :
  well_formed (session p) →
  rows (movies_df (session p)) = [r] →
  title r = Some movie →
  movie ≠ "" →
  clicked ui = true →
  session (after (main_rest ui) p) = session p ∧
  (Body, Warning NoRecommendationsFound) ∈ elements (after (main_rest ui) p).
Proof.
  intros Hwf Hrows Ht Hmovie Hclick. pose proof Hwf as (Hcol & _).
  destruct (movie_list_run (movies_df (session p)) (session p) Hcol)
    as (options & Hrun & Hin & _).
  assert (r ∈ rows (movies_df (session p))) as Hr; [rewrite Hrows; by left|].
  destruct (movie_list_nonempty _ _ _ _ _ Hcol Hrun Hr Ht) as [_ Hne].
  assert (selectbox options (choice ui) = movie) as Hsel.
  { pose proof (selectbox_elem options (choice ui) Hne) as Hs.
    apply Hin in Hs as (r' & Hr' & Ht'). rewrite Hrows in Hr'.
    apply list_elem_of_singleton in Hr'. subst. by simplify_eq. }
  destruct (recommend_fitting movie (session p) [] r [] Hwf Hrows) as
    (row & ms & _ & Hlen & HF & Hrec); [by intros x Hx%elem_of_nil|done|].
  assert (ms = []) as ->.
  { apply Forall2_length in HF. rewrite length_slice, length_distances, Hlen, Hrows in HF.
    simpl in HF. by destruct ms. }
  simpl in Hrec. rewrite with_requested_id in Hrec.
  pose proof (on_click_none ui movie
                (draw [(Body, Selectbox options); (Body, Markdown LineBreak); (Body, Button)] p)
                [] (session p) Hmovie Hrec) as Hpress.
  rewrite <- Hsel in Hpress at 1.
  destruct (main_rest_pressed_run ui p options _ Hclick Hrun Hne Hpress)
    as (r1 & side & Hmain & _).
  unfold after. rewrite Hmain. simpl. split; [done|].
  rewrite !elem_of_app, !elem_of_cons. auto 10.
Qed.

Lemma single_well_formed : well_formed single.
Proof.
  split; [vm_compute; set_solver|]. split; [vm_compute; set_solver|]. split.
  - intros k r Hk. destruct k as [|k]; simpl in Hk; [|done]. by injection Hk as <-.
  - split; [reflexivity|]. by repeat constructor.
Qed.

Lemma main_rest_single_movie_witness :
  session (after (main_rest press) (blank single)) = session (blank single) ∧
  (Body, Warning NoRecommendationsFound) ∈ elements (after (main_rest press) (blank single)).
Proof.
  apply (main_rest_single_movie press (blank single)
           {| label := 0; title := Some "A"; movie_id := IdInt 1 |} "A").
  - exact single_well_formed.
  - reflexivity.
  - reflexivity.
  - discriminate.
  - reflexivity.
Defined.

(** X21: the page after the checks does not fail.  For a table with both
    columns, whatever the matrix, the network and the widgets are, [main]
    runs to its end, provided that an image that does not load fails with
    an instance of [Exception] and that the fallback image loads. *)
Theorem main_rest_never_raises (ui : widgets) (p : page) :
  tolerant ui →
  "title" ∈ columns (movies_df (session p)) →
  "id" ∈ columns (movies_df (session p)) →
  value (main_rest ui) p = Ret tt.
Proof.
  intros Hui Hcol Hid. unfold value.
  destruct (movie_list_run (movies_df (session p)) (session p) Hcol)
    as (options & Hrun & _).
  destruct (decide (options = [])) as [->|Hne].
  { by rewrite (main_rest_unfold ui p [] Hrun). }
  destruct (clicked ui) eqn:Hclick.
  - destruct (recommend_returns (selectbox options (choice ui)) (session p))
      as (ns & ps & w1 & Hrec & _).
    pose proof (on_click_run ui (selectbox options (choice ui))
                  (draw [(Body, Selectbox options); (Body, Markdown LineBreak);
                         (Body, Button)] p)
                  ns ps w1 Hui Hrec) as Hpress.
    destruct (main_rest_pressed_run ui p options _ Hclick Hrun Hne Hpress)
      as (r & side & Hmain & _ & Hr).
    rewrite Hmain. simpl. by apply Hr.
  - destruct (main_rest_idle_run ui p options Hclick Hrun Hne) as (r & side & Hmain & _ & Hr).
    rewrite Hmain. simpl. by apply Hr.
Qed.

Lemma main_rest_never_raises_witness : value (main_rest press) (blank scenario) = Ret tt.
Proof.
  apply (main_rest_never_raises press (blank scenario)).
  - by split.
  - vm_compute. set_solver.
  - vm_compute. set_solver.
Defined.

Section Fallback.
Implicit Types (p : page) (w : world) (ui : widgets).

(** A column whose poster and whose fallback image both fail. *)
Lemma show_column_fails ui i name poster p e e2 :
  image_error ui poster = Some e → is_Exception e = true →
  image_error ui image_fallback = Some e2 →
  show_column ui i name poster p
  = (Raise e2, draw [(Column i, Markdown (Bold name));
                     (Column i, Error (FailedToLoadImage e))] p).
Proof.
  intros Hposter He Hfallback.
  unfold show_column, bind, try_except, st_image. rewrite emit_run, Hposter.
  unfold raise. simpl. rewrite He. simpl. rewrite Hfallback.
  unfold draw. simpl. by rewrite <- !app_assoc.
Qed.
End Fallback.

(** X22: the fallback image is not protected.  When the poster of the
    first recommendation does not load and the fallback image of line 142
    does not load either, the exception of the fallback leaves [main]: the
    page stops after the error message in the first column, and shows no
    other recommendation, no footer and no sidebar. *)
Theorem main_rest_fallback_failure (ui : widgets) (p : page) (options : list string)
    (name : option string) (names : list (option string))
    (poster : string) (posters : list string) (w' : world) (e e2 : exn) :
  clicked ui = true →
  movie_list (movies_df (session p)) (session p) = (Ret options, session p) →
  options ≠ [] →
  selectbox options (choice ui) ≠ "" →
  recommend (selectbox options (choice ui)) (session p)
  = (Ret (name :: names, poster :: posters), w') →
  image_error ui poster = Some e →
  is_Exception e = true →
  image_error ui image_fallback = Some e2 →
  main_rest ui p
  = (Raise e2,
     draw [(Body, Selectbox options); (Body, Markdown LineBreak); (Body, Button);
           (Body, Success (selectbox options (choice ui)));
           (Body, Markdown Separator); (Body, Columns 5);
           (Column 0, Markdown (Bold name));
           (Column 0, Error (FailedToLoadImage e))] (on_world w' p)).
Proof.
  intros Hclick Hlist Hne Hsel Hrun Hposter He Hfallback.
  rewrite (main_rest_unfold ui p options Hlist), Hclick.
  destruct options as [|o options]; [done|]. simpl length. cbn [Nat.eqb].
  unfold on_click. apply String.eqb_neq in Hsel. rewrite Hsel. cbn [negb].
  unfold bind at 1. rewrite lift_run. cbn [session draw]. rewrite Hrun.
  cbn [fst snd length Nat.ltb Nat.leb negb andb]. rewrite bool_decide_eq_false_2 by done.
  cbn [negb andb].
  unfold show_recommendations, bind. rewrite !emit_run.
  cbn [enumerate zip zip_with imap for_each]. unfold bind. cbn [Nat.ltb Nat.leb].
  rewrite (show_column_fails ui 0 name poster _ e e2) by done.
  unfold draw, on_world. simpl. by rewrite <- !app_assoc.
Qed.

Lemma main_rest_fallback_failure_witness :
  main_rest offline (blank scenario)
  = (Raise RequestException,
     draw [(Body, Selectbox ["A"; "B"; "C"]); (Body, Markdown LineBreak); (Body, Button);
           (Body, Success (selectbox ["A"; "B"; "C"] (choice offline)));
           (Body, Markdown Separator); (Body, Columns 5);
           (Column 0, Markdown (Bold (Some "B")));
           (Column 0, Error (FailedToLoadImage RequestException))]
       (on_world (with_requested [api_url 2; api_url 3] scenario) (blank scenario))).
Proof.
  apply (main_rest_fallback_failure offline (blank scenario) ["A"; "B"; "C"]
           (Some "B") [Some "C"] timeout_poster [timeout_poster]
           (with_requested [api_url 2; api_url 3] scenario)
           RequestException RequestException);
    (reflexivity || discriminate).
Defined.

(** X23: a rejected load stays rejected.  The pair that [load_data] read is
    cached before [main] checks it; so once [main] has ended at line 94, 99
    or 103, every later run ends there again, whatever the files hold by
    then, and does not open them. *)
Theorem main_load_rejection_stays (w : world) (files : string → file) :
  cache w = None →
  value main_load w = Ret None →
  value main_load (with_storage files (after main_load w)) = Ret None ∧
  opened (after main_load (with_storage files (after main_load w)))
  = opened (after main_load w).
Proof.
  intros Hcache Hval. unfold value, after in *.
  rewrite (main_load_unfold w), (load_data_miss w) in * by done.
  destruct (storage w "movie_list.pkl") as [| |m]; simpl in *; try done.
  destruct (storage w "similarity.pkl") as [| |s]; simpl in *; try done.
  destruct (is_PyNone m || is_PyNone s) eqn:Hnone; simpl in *.
  - rewrite main_load_unfold, (load_data_hit _ (m, s)) by done. by rewrite Hnone.
  - destruct m as [|df| |]; simpl in *; try done.
    repeat case_bool_decide; simpl in *; try done;
      rewrite main_load_unfold, (load_data_hit _ (PyDataFrame df, s)) by done;
      rewrite Hnone; simpl; by repeat case_bool_decide.
Qed.

Lemma main_load_rejection_stays_witness :
  value main_load
    (with_storage (pickled (PyDataFrame scenario_table) (PyArray scenario_matrix))
       (after main_load (with_storage (pickled PyNone (PyArray scenario_matrix)) fresh)))
  = Ret None ∧
  opened (after main_load
    (with_storage (pickled (PyDataFrame scenario_table) (PyArray scenario_matrix))
       (after main_load (with_storage (pickled PyNone (PyArray scenario_matrix)) fresh))))
  = opened (after main_load (with_storage (pickled PyNone (PyArray scenario_matrix)) fresh)).
Proof.
  apply (main_load_rejection_stays
           (with_storage (pickled PyNone (PyArray scenario_matrix)) fresh)
           (pickled (PyDataFrame scenario_table) (PyArray scenario_matrix)));
    reflexivity.
Defined.
